(** * HelenOS display server: the display object (uspace/srv/hid/display/display.c)

    A shallow embedding of the display core: the collections of clients,
    WM clients, seats, display devices, cursors and windows, the window
    stacking policy, input routing, the back buffer with its dirty
    rectangle, and the paint sequence.

    C objects live in a store indexed by address; a pointer that may be
    NULL is an [option ptr].  A function that can hit a failed [assert]
    or read through a NULL pointer returns in the [M] monad, whose
    [Crash] outcome ends the run. *)

From stdpp Require Import base decidable numbers option functions list.

(** ** Basic types *)

(** Address of a C object. *)
Definition ptr := positive.

(** [errno_t]: [EOK], [ENOMEM], and any other error code. *)
Inductive errno_t := EOK | ENOMEM | EOTHER (code : nat).

Global Instance errno_t_eq_dec : EqDecision errno_t.
Proof. solve_decision. Defined.

(** The test [rc != EOK]. *)
Definition is_error (rc : errno_t) : bool :=
  match rc with EOK => false | _ => true end.

(** [gfx_coord2_t] and [gfx_rect_t] (gfx/coord.h): [gfx_coord_t] is [int]. *)
Record gfx_coord2_t := mk_coord2 { x : Z; y : Z }.
Record gfx_rect_t := mk_rect { p0 : gfx_coord2_t; p1 : gfx_coord2_t }.

Global Instance gfx_coord2_t_eq_dec : EqDecision gfx_coord2_t.
Proof. solve_decision. Defined.
Global Instance gfx_rect_t_eq_dec : EqDecision gfx_rect_t.
Proof. solve_decision. Defined.

(** The rectangle with [p0 = p1 = (0,0)], as written field by field in
    [ds_display_alloc_backbuf], [ds_display_update] and the error path of
    [ds_display_add_ddev]. *)
Definition rect_zero : gfx_rect_t := mk_rect (mk_coord2 0 0) (mk_coord2 0 0).

(** Modelled from the spec: [gfx_rect_is_empty] (lib/gfx coord.c is not
    under src/).  An empty rectangle has no extent in one direction, as
    the rectangle with p0 = p1 = origin has. *)
Definition gfx_rect_is_empty (r : gfx_rect_t) : bool :=
  bool_decide (x (p0 r) = x (p1 r)) || bool_decide (y (p0 r) = y (p1 r)).

(** Modelled from the spec: [gfx_rect_envelope] (lib/gfx coord.c is not
    under src/), the bounding envelope of two rectangles.  An empty
    rectangle contributes nothing; otherwise the envelope spans from the
    smaller [p0] to the larger [p1] in each direction. *)
Definition gfx_rect_envelope (a b : gfx_rect_t) : gfx_rect_t :=
  if gfx_rect_is_empty a then b
  else if gfx_rect_is_empty b then a
  else mk_rect (mk_coord2 (Z.min (x (p0 a)) (x (p0 b))) (Z.min (y (p0 a)) (y (p0 b))))
               (mk_coord2 (Z.max (x (p1 a)) (x (p1 b))) (Z.max (y (p1 a)) (y (p1 b)))).

(** Modelled from the spec: [gfx_pix_inside_rect] (lib/gfx coord.c is not
    under src/), the point-in-rect helper: [p0] is inside, [p1] is not. *)
Definition gfx_pix_inside_rect (p : gfx_coord2_t) (r : gfx_rect_t) : bool :=
  bool_decide (x (p0 r) ≤ x p)%Z && bool_decide (x p < x (p1 r))%Z &&
  bool_decide (y (p0 r) ≤ y p)%Z && bool_decide (y p < y (p1 r))%Z.

(** Modelled from the spec: [df_none] and [df_disp_double_buf] of
    [ds_display_flags_t] (types/display/display.h is not under src/): no
    flag, and the one bit of the "double-buffered" flag. *)
Definition df_none : Z := 0.
Definition df_disp_double_buf : Z := 1.

(** Modelled from the spec: [wndf_topmost] of [display_wnd_flags_t]
    (display/wndparams.h is not under src/): the one bit of the
    "topmost" window flag. *)
Definition wndf_topmost : Z := 4.

(** Handles of objects owned by the graphics libraries. *)
Definition gfx_context_t := positive.
Definition gfx_bitmap_t := positive.
Definition gfx_bitmap_alloc_t := positive.
Definition gfx_color_t := positive.
Definition mem_gc_t := positive.
Definition ds_clonegc_t := positive.

(** ** Intrusive lists (adt/list.h)

    adt/list.h is not under src/.  A list head is modelled as the
    sequence of its members' addresses, front first, and a member's link
    as the owner of the list that holds it. *)

(** Modelled from the spec: [link_t] of adt/list.h.  It records the
    display whose list holds the member, [None] for a link that is not
    in use (both pointers NULL in C); a link is in at most one list, at
    one place. *)
Definition link_t := option ptr.

(** Modelled from the spec: [link_used] of adt/list.h. *)
Definition link_used (l : link_t) : bool :=
  match l with Some _ => true | None => false end.

(** Modelled from the spec: [list_append] of adt/list.h, insertion at
    the end of the list. *)
Definition list_append (m : ptr) (l : list ptr) : list ptr := l ++ [m].

(** Modelled from the spec: [list_prepend] of adt/list.h, insertion at
    the front of the list. *)
Definition list_prepend (m : ptr) (l : list ptr) : list ptr := m :: l.

(** Modelled from the spec: [list_remove] of adt/list.h, on the list
    that holds the link: the member is unlinked. *)
Definition list_remove (m : ptr) (l : list ptr) : list ptr :=
  filter (λ n, n ≠ m) l.

(** Modelled from the spec: [list_insert_before] of adt/list.h: [m] is
    inserted immediately before the member [w]. *)
Fixpoint list_insert_before (m w : ptr) (l : list ptr) : list ptr :=
  match l with
  | [] => []
  | n :: l' =>
      if decide (n = w) then m :: n :: l' else n :: list_insert_before m w l'
  end.

(** Modelled from the spec: [list_first] and [list_last] of adt/list.h,
    NULL for an empty list. *)
Definition list_first (l : list ptr) : option ptr := head l.
Definition list_last (l : list ptr) : option ptr := last l.

(** ** Objects *)

Record ds_client_t := mk_client {
  client_display : option ptr;
  lclients : link_t
}.

Record ds_wmclient_t := mk_wmclient {
  wmclient_display : option ptr;
  lwmclients : link_t
}.

Record ds_seat_t := mk_seat {
  seat_display : option ptr;
  lseats : link_t
}.

Record ds_cursor_t := mk_cursor {
  cursor_display : option ptr;
  ldisplay : link_t
}.

Record ds_ddev_t := mk_ddev {
  ddev_display : option ptr;
  lddevs : link_t;
  ddev_info_rect : gfx_rect_t;
  ddev_gc : gfx_context_t
}.

Record ds_window_t := mk_window {
  wnd_display : option ptr;
  ldwindows : link_t;
  wnd_id : Z;
  wnd_flags : Z
}.

(** [ds_display_t], without the mutex and the [cursor[]] array. *)
Record ds_display_t := mk_display {
  disp_clients : list ptr;
  disp_wmclients : list ptr;
  disp_next_wnd_id : Z;
  disp_ddevs : list ptr;
  disp_seats : list ptr;
  disp_windows : list ptr;
  disp_cursors : list ptr;
  disp_flags : Z;
  disp_rect : gfx_rect_t;
  disp_bg_color : gfx_color_t;
  disp_backbuf : option gfx_bitmap_t;
  disp_bbgc : option mem_gc_t;
  disp_fbgc : option ds_clonegc_t;
  disp_dirty_rect : gfx_rect_t
}.

Record kbd_event_t := mk_kbd_event { kbd_id : Z; kbd_key : Z }.
Record ptd_event_t := mk_ptd_event { pos_id : Z; ptd_data : Z }.

(** ** External calls and the store *)

(** Calls made to the collaborators: WM client notifications, seat event
    delivery, drawing, the paint delegates and bitmap release. *)
Inductive call_t :=
  | call_wnd_added (wmclient : ptr) (id : Z)
  | call_wnd_removed (wmclient : ptr) (id : Z)
  | call_seat_post_kbd (seat : ptr) (event : kbd_event_t)
  | call_seat_post_ptd (seat : ptr) (event : ptd_event_t)
  | call_set_color (gc : gfx_context_t) (color : gfx_color_t)
  | call_fill_rect (gc : gfx_context_t) (r : gfx_rect_t)
  | call_bitmap_render (bm : gfx_bitmap_t) (r : gfx_rect_t)
  | call_bitmap_destroy (bm : gfx_bitmap_t)
  | call_window_paint (wnd : ptr) (r : option gfx_rect_t)
  | call_window_paint_preview (wnd : ptr) (r : option gfx_rect_t)
  | call_seat_paint_pointer (seat : ptr) (r : option gfx_rect_t).

(** The store: one object of each kind at every address, and the calls
    made so far, oldest first. *)
Record ds_world := mk_world {
  mem_display : ptr → ds_display_t;
  mem_client : ptr → ds_client_t;
  mem_wmclient : ptr → ds_wmclient_t;
  mem_seat : ptr → ds_seat_t;
  mem_cursor : ptr → ds_cursor_t;
  mem_ddev : ptr → ds_ddev_t;
  mem_window : ptr → ds_window_t;
  calls : list call_t
}.

Inductive crash_t := assert_failed | null_deref.

Inductive result (A : Type) :=
  | Ret (a : A)
  | Crash (c : crash_t).
Global Arguments Ret {A} a.
Global Arguments Crash {A} c.

Definition M (A : Type) : Type := ds_world → result (A * ds_world).

Global Instance M_ret : MRet M := λ A a w, Ret (a, w).
Global Instance M_bind : MBind M := λ A B f m w,
  match m w with
  | Ret (a, w') => f a w'
  | Crash c => Crash c
  end.

Definition crash {A} (c : crash_t) : M A := λ _, Crash c.

(** [assert(b)]. *)
Definition assert (b : bool) : M unit :=
  if b then mret () else crash assert_failed.

Definition log (c : call_t) : M unit := λ w,
  Ret ((), mk_world (mem_display w) (mem_client w) (mem_wmclient w) (mem_seat w)
             (mem_cursor w) (mem_ddev w) (mem_window w) (calls w ++ [c])).

(** Reads and writes of the objects. *)
Definition get_display (d : ptr) : M ds_display_t := λ w, Ret (mem_display w d, w).
Definition get_client (p : ptr) : M ds_client_t := λ w, Ret (mem_client w p, w).
Definition get_wmclient (p : ptr) : M ds_wmclient_t := λ w, Ret (mem_wmclient w p, w).
Definition get_seat (p : ptr) : M ds_seat_t := λ w, Ret (mem_seat w p, w).
Definition get_cursor (p : ptr) : M ds_cursor_t := λ w, Ret (mem_cursor w p, w).
Definition get_ddev (p : ptr) : M ds_ddev_t := λ w, Ret (mem_ddev w p, w).
Definition get_window (p : ptr) : M ds_window_t := λ w, Ret (mem_window w p, w).

Definition put_display (d : ptr) (v : ds_display_t) : M unit := λ w,
  Ret ((), mk_world (<[d := v]> (mem_display w)) (mem_client w) (mem_wmclient w)
             (mem_seat w) (mem_cursor w) (mem_ddev w) (mem_window w) (calls w)).
Definition put_client (p : ptr) (v : ds_client_t) : M unit := λ w,
  Ret ((), mk_world (mem_display w) (<[p := v]> (mem_client w)) (mem_wmclient w)
             (mem_seat w) (mem_cursor w) (mem_ddev w) (mem_window w) (calls w)).
Definition put_wmclient (p : ptr) (v : ds_wmclient_t) : M unit := λ w,
  Ret ((), mk_world (mem_display w) (mem_client w) (<[p := v]> (mem_wmclient w))
             (mem_seat w) (mem_cursor w) (mem_ddev w) (mem_window w) (calls w)).
Definition put_seat (p : ptr) (v : ds_seat_t) : M unit := λ w,
  Ret ((), mk_world (mem_display w) (mem_client w) (mem_wmclient w)
             (<[p := v]> (mem_seat w)) (mem_cursor w) (mem_ddev w) (mem_window w) (calls w)).
Definition put_cursor (p : ptr) (v : ds_cursor_t) : M unit := λ w,
  Ret ((), mk_world (mem_display w) (mem_client w) (mem_wmclient w)
             (mem_seat w) (<[p := v]> (mem_cursor w)) (mem_ddev w) (mem_window w) (calls w)).
Definition put_ddev (p : ptr) (v : ds_ddev_t) : M unit := λ w,
  Ret ((), mk_world (mem_display w) (mem_client w) (mem_wmclient w)
             (mem_seat w) (mem_cursor w) (<[p := v]> (mem_ddev w)) (mem_window w) (calls w)).
Definition put_window (p : ptr) (v : ds_window_t) : M unit := λ w,
  Ret ((), mk_world (mem_display w) (mem_client w) (mem_wmclient w)
             (mem_seat w) (mem_cursor w) (mem_ddev w) (<[p := v]> (mem_window w)) (calls w)).

(** Field assignments on a display. *)
Definition with_clients (l : list ptr) (d : ds_display_t) : ds_display_t :=
  mk_display l (disp_wmclients d) (disp_next_wnd_id d) (disp_ddevs d) (disp_seats d)
    (disp_windows d) (disp_cursors d) (disp_flags d) (disp_rect d) (disp_bg_color d)
    (disp_backbuf d) (disp_bbgc d) (disp_fbgc d) (disp_dirty_rect d).
Definition with_wmclients (l : list ptr) (d : ds_display_t) : ds_display_t :=
  mk_display (disp_clients d) l (disp_next_wnd_id d) (disp_ddevs d) (disp_seats d)
    (disp_windows d) (disp_cursors d) (disp_flags d) (disp_rect d) (disp_bg_color d)
    (disp_backbuf d) (disp_bbgc d) (disp_fbgc d) (disp_dirty_rect d).
Definition with_ddevs (l : list ptr) (d : ds_display_t) : ds_display_t :=
  mk_display (disp_clients d) (disp_wmclients d) (disp_next_wnd_id d) l (disp_seats d)
    (disp_windows d) (disp_cursors d) (disp_flags d) (disp_rect d) (disp_bg_color d)
    (disp_backbuf d) (disp_bbgc d) (disp_fbgc d) (disp_dirty_rect d).
Definition with_seats (l : list ptr) (d : ds_display_t) : ds_display_t :=
  mk_display (disp_clients d) (disp_wmclients d) (disp_next_wnd_id d) (disp_ddevs d) l
    (disp_windows d) (disp_cursors d) (disp_flags d) (disp_rect d) (disp_bg_color d)
    (disp_backbuf d) (disp_bbgc d) (disp_fbgc d) (disp_dirty_rect d).
Definition with_windows (l : list ptr) (d : ds_display_t) : ds_display_t :=
  mk_display (disp_clients d) (disp_wmclients d) (disp_next_wnd_id d) (disp_ddevs d)
    (disp_seats d) l (disp_cursors d) (disp_flags d) (disp_rect d) (disp_bg_color d)
    (disp_backbuf d) (disp_bbgc d) (disp_fbgc d) (disp_dirty_rect d).
Definition with_cursors (l : list ptr) (d : ds_display_t) : ds_display_t :=
  mk_display (disp_clients d) (disp_wmclients d) (disp_next_wnd_id d) (disp_ddevs d)
    (disp_seats d) (disp_windows d) l (disp_flags d) (disp_rect d) (disp_bg_color d)
    (disp_backbuf d) (disp_bbgc d) (disp_fbgc d) (disp_dirty_rect d).
Definition with_rect (r : gfx_rect_t) (d : ds_display_t) : ds_display_t :=
  mk_display (disp_clients d) (disp_wmclients d) (disp_next_wnd_id d) (disp_ddevs d)
    (disp_seats d) (disp_windows d) (disp_cursors d) (disp_flags d) r (disp_bg_color d)
    (disp_backbuf d) (disp_bbgc d) (disp_fbgc d) (disp_dirty_rect d).
Definition with_backbuf (b : option gfx_bitmap_t) (d : ds_display_t) : ds_display_t :=
  mk_display (disp_clients d) (disp_wmclients d) (disp_next_wnd_id d) (disp_ddevs d)
    (disp_seats d) (disp_windows d) (disp_cursors d) (disp_flags d) (disp_rect d)
    (disp_bg_color d) b (disp_bbgc d) (disp_fbgc d) (disp_dirty_rect d).
Definition with_bbgc (g : option mem_gc_t) (d : ds_display_t) : ds_display_t :=
  mk_display (disp_clients d) (disp_wmclients d) (disp_next_wnd_id d) (disp_ddevs d)
    (disp_seats d) (disp_windows d) (disp_cursors d) (disp_flags d) (disp_rect d)
    (disp_bg_color d) (disp_backbuf d) g (disp_fbgc d) (disp_dirty_rect d).
Definition with_fbgc (g : option ds_clonegc_t) (d : ds_display_t) : ds_display_t :=
  mk_display (disp_clients d) (disp_wmclients d) (disp_next_wnd_id d) (disp_ddevs d)
    (disp_seats d) (disp_windows d) (disp_cursors d) (disp_flags d) (disp_rect d)
    (disp_bg_color d) (disp_backbuf d) (disp_bbgc d) g (disp_dirty_rect d).
Definition with_dirty_rect (r : gfx_rect_t) (d : ds_display_t) : ds_display_t :=
  mk_display (disp_clients d) (disp_wmclients d) (disp_next_wnd_id d) (disp_ddevs d)
    (disp_seats d) (disp_windows d) (disp_cursors d) (disp_flags d) (disp_rect d)
    (disp_bg_color d) (disp_backbuf d) (disp_bbgc d) (disp_fbgc d) r.

(** [disp->field = ...] on the display at address [d]. *)
Definition upd_display (d : ptr) (f : ds_display_t → ds_display_t) : M unit :=
  v ← get_display d; put_display d (f v).

(** ** Collaborators

    What the functions outside display.c answer.  A function with an
    output parameter stores into it exactly when it returns [EOK].  A
    drawing function also reports the rectangles for which the memory GC
    it drew into invoked the invalidate callback during the call. *)
Record ds_env := mk_env {
  ds_seat_post_kbd_event : ptr → kbd_event_t → errno_t;
  ds_seat_post_ptd_event : ptr → ptd_event_t → errno_t;
  ds_clonegc_create : gfx_context_t → errno_t * ds_clonegc_t;
  ds_clonegc_add_output : option ds_clonegc_t → gfx_context_t → errno_t;
  ds_clonegc_get_ctx : ds_clonegc_t → gfx_context_t;
  gfx_bitmap_create : option gfx_context_t → gfx_rect_t → errno_t * gfx_bitmap_t;
  gfx_bitmap_get_alloc : gfx_bitmap_t → errno_t * gfx_bitmap_alloc_t;
  mem_gc_create : gfx_rect_t → gfx_bitmap_alloc_t → errno_t * mem_gc_t;
  mem_gc_get_ctx : mem_gc_t → gfx_context_t;
  gfx_rect_clip : gfx_rect_t → gfx_rect_t → gfx_rect_t;
  gfx_set_color : gfx_context_t → gfx_color_t → errno_t * list gfx_rect_t;
  gfx_fill_rect : gfx_context_t → gfx_rect_t → errno_t * list gfx_rect_t;
  gfx_bitmap_render : gfx_bitmap_t → gfx_rect_t → errno_t;
  ds_window_paint : ptr → option gfx_rect_t → errno_t * list gfx_rect_t;
  ds_window_paint_preview : ptr → option gfx_rect_t → errno_t * list gfx_rect_t;
  ds_seat_paint_pointer : ptr → option gfx_rect_t → errno_t * list gfx_rect_t
}.

(** ** Attaching and detaching clients, WM clients, seats and cursors *)

(** An attach operation: the two assertions, [entity->display = disp],
    then the list insertion, which puts the link in use. *)
Definition ds_display_add_client (disp client : ptr) : M unit :=
  c ← get_client client;
  assert (bool_decide (client_display c = None));;
  assert (negb (link_used (lclients c)));;
  put_client client (mk_client (Some disp) (lclients c));;
  put_client client (mk_client (Some disp) (Some disp));;
  upd_display disp (λ d, with_clients (list_append client (disp_clients d)) d).

(** A detach operation: [list_remove], which takes the link out of the
    list that holds it and does nothing for a link not in use, then
    [entity->display = NULL]. *)
Definition ds_display_remove_client (client : ptr) : M unit :=
  c ← get_client client;
  match lclients c with
  | Some owner =>
      upd_display owner (λ d, with_clients (list_remove client (disp_clients d)) d)
  | None => mret ()
  end;;
  put_client client (mk_client None None).

Definition ds_display_add_wmclient (disp wmclient : ptr) : M unit :=
  c ← get_wmclient wmclient;
  assert (bool_decide (wmclient_display c = None));;
  assert (negb (link_used (lwmclients c)));;
  put_wmclient wmclient (mk_wmclient (Some disp) (lwmclients c));;
  put_wmclient wmclient (mk_wmclient (Some disp) (Some disp));;
  upd_display disp (λ d, with_wmclients (list_append wmclient (disp_wmclients d)) d).

Definition ds_display_remove_wmclient (wmclient : ptr) : M unit :=
  c ← get_wmclient wmclient;
  match lwmclients c with
  | Some owner =>
      upd_display owner (λ d, with_wmclients (list_remove wmclient (disp_wmclients d)) d)
  | None => mret ()
  end;;
  put_wmclient wmclient (mk_wmclient None None).

Definition ds_display_add_seat (disp seat : ptr) : M unit :=
  s ← get_seat seat;
  assert (bool_decide (seat_display s = None));;
  assert (negb (link_used (lseats s)));;
  put_seat seat (mk_seat (Some disp) (lseats s));;
  put_seat seat (mk_seat (Some disp) (Some disp));;
  upd_display disp (λ d, with_seats (list_append seat (disp_seats d)) d).

Definition ds_display_remove_seat (seat : ptr) : M unit :=
  s ← get_seat seat;
  match lseats s with
  | Some owner =>
      upd_display owner (λ d, with_seats (list_remove seat (disp_seats d)) d)
  | None => mret ()
  end;;
  put_seat seat (mk_seat None None).

Definition ds_display_add_cursor (display cursor : ptr) : M unit :=
  c ← get_cursor cursor;
  assert (bool_decide (cursor_display c = None));;
  assert (negb (link_used (ldisplay c)));;
  put_cursor cursor (mk_cursor (Some display) (ldisplay c));;
  put_cursor cursor (mk_cursor (Some display) (Some display));;
  upd_display display (λ d, with_cursors (list_prepend cursor (disp_cursors d)) d).

Definition ds_display_remove_cursor (cursor : ptr) : M unit :=
  c ← get_cursor cursor;
  match ldisplay c with
  | Some owner =>
      upd_display owner (λ d, with_cursors (list_remove cursor (disp_cursors d)) d)
  | None => mret ()
  end;;
  put_cursor cursor (mk_cursor None None).

Definition ds_display_remove_ddev (ddev : ptr) : M unit :=
  dd ← get_ddev ddev;
  match lddevs dd with
  | Some owner =>
      upd_display owner (λ d, with_ddevs (list_remove ddev (disp_ddevs d)) d)
  | None => mret ()
  end;;
  put_ddev ddev (mk_ddev None None (ddev_info_rect dd) (ddev_gc dd)).

(** ** Window registry *)

(** [(w->flags & wndf_topmost) != 0] *)
Definition is_topmost (w : ds_window_t) : bool :=
  negb (Z.land (wnd_flags w) wndf_topmost =? 0)%Z.

(** The scan of [ds_display_enlist_window]: from
    [ds_display_first_window], following [ds_display_next_window] while
    the window is topmost; the window it stops at, or [None] past the end. *)
Fixpoint first_non_topmost (wnds : ptr → ds_window_t) (l : list ptr) : option ptr :=
  match l with
  | [] => None
  | w :: l' => if is_topmost (wnds w) then first_non_topmost wnds l' else Some w
  end.

Definition get_world : M ds_world := λ w, Ret (w, w).

(** The link of [wnd] after [wnd] was put into the window list of [display]. *)
Definition set_ldwindows (wnd : ptr) (l : link_t) : M unit :=
  wn ← get_window wnd;
  put_window wnd (mk_window (wnd_display wn) l (wnd_id wn) (wnd_flags wn)).

Definition ds_display_enlist_window (display wnd : ptr) : M unit :=
  wn ← get_window wnd;
  assert (bool_decide (wnd_display wn = Some display));;
  assert (negb (link_used (ldwindows wn)));;
  if (Z.land (wnd_flags wn) wndf_topmost =? 0)%Z then
    world ← get_world;
    match first_non_topmost (mem_window world)
            (disp_windows (mem_display world display)) with
    | Some w =>
        upd_display display
          (λ d, with_windows (list_insert_before wnd w (disp_windows d)) d);;
        set_ldwindows wnd (Some display)
    | None =>
        upd_display display
          (λ d, with_windows (list_append wnd (disp_windows d)) d);;
        set_ldwindows wnd (Some display)
    end
  else
    upd_display display (λ d, with_windows (list_prepend wnd (disp_windows d)) d);;
    set_ldwindows wnd (Some display).

(** The loops over [ds_display_first_wmclient] / [ds_display_next_wmclient]. *)
Fixpoint post_wnd_added_events (wmclients : list ptr) (id : Z) : M unit :=
  match wmclients with
  | [] => mret ()
  | wmclient :: rest =>
      log (call_wnd_added wmclient id);; post_wnd_added_events rest id
  end.

Fixpoint post_wnd_removed_events (wmclients : list ptr) (id : Z) : M unit :=
  match wmclients with
  | [] => mret ()
  | wmclient :: rest =>
      log (call_wnd_removed wmclient id);; post_wnd_removed_events rest id
  end.

Definition ds_display_add_window (display wnd : ptr) : M unit :=
  wn ← get_window wnd;
  assert (bool_decide (wnd_display wn = None));;
  assert (negb (link_used (ldwindows wn)));;
  put_window wnd (mk_window (Some display) (ldwindows wn) (wnd_id wn) (wnd_flags wn));;
  ds_display_enlist_window display wnd;;
  d ← get_display display;
  post_wnd_added_events (disp_wmclients d) (wnd_id wn).

(** [list_remove(&wnd->ldwindows)] *)
Definition unlink_window (wnd : ptr) : M unit :=
  wn ← get_window wnd;
  match ldwindows wn with
  | Some owner =>
      upd_display owner (λ d, with_windows (list_remove wnd (disp_windows d)) d)
  | None => mret ()
  end;;
  put_window wnd (mk_window (wnd_display wn) None (wnd_id wn) (wnd_flags wn)).

(** With [wnd->display] NULL the notification loop starts by reading the
    WM client list through the NULL display pointer. *)
Definition ds_display_remove_window (wnd : ptr) : M unit :=
  wn ← get_window wnd;
  let display := wnd_display wn in
  unlink_window wnd;;
  put_window wnd (mk_window None None (wnd_id wn) (wnd_flags wn));;
  match display with
  | Some disp =>
      d ← get_display disp;
      post_wnd_removed_events (disp_wmclients d) (wnd_id wn)
  | None => crash null_deref
  end.

(** After the first assertion [wnd->display] is not NULL. *)
Definition ds_display_window_to_top (wnd : ptr) : M unit :=
  wn ← get_window wnd;
  assert (bool_decide (wnd_display wn ≠ None));;
  assert (link_used (ldwindows wn));;
  unlink_window wnd;;
  match wnd_display wn with
  | Some display => ds_display_enlist_window display wnd
  | None => crash null_deref
  end.

Definition ds_display_first_window (display : ptr) : M (option ptr) :=
  d ← get_display display; mret (list_first (disp_windows d)).

Definition ds_display_last_window (display : ptr) : M (option ptr) :=
  d ← get_display display; mret (list_last (disp_windows d)).

(** The display object [ds_display_create] stores through [rdisp] when
    it returns [EOK]: the zero-filled allocation, the background colour,
    the initialised lists, [next_wnd_id = 1] and the flags.  The cursor
    list is what the calls of [ds_cursor_create] left in it. *)
Definition ds_display_created (flags : Z) (bg : gfx_color_t) (cursors : list ptr)
    : ds_display_t :=
  mk_display [] [] 1 [] [] [] cursors flags rect_zero bg None None None rect_zero.

Section display.

Context (env : ds_env).

(** ** Seats and input events *)

Definition ds_display_first_seat (disp : ptr) : M (option ptr) :=
  d ← get_display disp; mret (list_first (disp_seats d)).

Definition ds_display_seat_by_idev (disp : ptr) (idev_id : Z) : M (option ptr) :=
  ds_display_first_seat disp.

Definition ds_display_post_kbd_event (display : ptr) (event : kbd_event_t)
    : M errno_t :=
  seat ← ds_display_seat_by_idev display (kbd_id event);
  match seat with
  | None => mret EOK
  | Some s =>
      log (call_seat_post_kbd s event);;
      mret (ds_seat_post_kbd_event env s event)
  end.

Definition ds_display_post_ptd_event (display : ptr) (event : ptd_event_t)
    : M errno_t :=
  seat ← ds_display_seat_by_idev display (pos_id event);
  match seat with
  | None => mret EOK
  | Some s =>
      log (call_seat_post_ptd s event);;
      mret (ds_seat_post_ptd_event env s event)
  end.

(** ** Graphic contexts, back buffer and display devices *)

Definition ds_display_get_unbuf_gc (display : ptr) : M (option gfx_context_t) :=
  d ← get_display display;
  match disp_fbgc d with
  | None => mret None
  | Some fbgc => mret (Some (ds_clonegc_get_ctx env fbgc))
  end.

(** Modelled from the spec: [mem_gc_get_ctx] (memgfx/memgc.c is not under
    src/) returns the context of the memory GC it is given.  It reads
    the field through its argument, so a NULL argument is a NULL
    dereference. *)
Definition mem_gc_get_ctx_ptr (mgc : option mem_gc_t) : M gfx_context_t :=
  match mgc with
  | Some g => mret (mem_gc_get_ctx env g)
  | None => crash null_deref
  end.

Definition ds_display_get_gc (display : ptr) : M (option gfx_context_t) :=
  d ← get_display display;
  if negb (Z.land (disp_flags d) df_disp_double_buf =? 0)%Z then
    gc ← mem_gc_get_ctx_ptr (disp_bbgc d); mret (Some gc)
  else ds_display_get_unbuf_gc display.

(** The [error:] label of [ds_display_alloc_backbuf]. *)
Definition alloc_backbuf_error (disp : ptr) (rc : errno_t) : M errno_t :=
  d ← get_display disp;
  match disp_backbuf d with
  | Some bm =>
      log (call_bitmap_destroy bm);;
      upd_display disp (with_backbuf None)
  | None => mret ()
  end;;
  mret rc.

Definition ds_display_alloc_backbuf (disp : ptr) : M errno_t :=
  d ← get_display disp;
  if (Z.land (disp_flags d) df_disp_double_buf =? 0)%Z then mret EOK
  else
    ugc ← ds_display_get_unbuf_gc disp;
    let '(rc, bm) := gfx_bitmap_create env ugc (disp_rect d) in
    if is_error rc then alloc_backbuf_error disp rc
    else
      upd_display disp (with_backbuf (Some bm));;
      let '(rc, alloc) := gfx_bitmap_get_alloc env bm in
      if is_error rc then alloc_backbuf_error disp rc
      else
        let '(rc, bbgc) := mem_gc_create env (disp_rect d) alloc in
        if is_error rc then alloc_backbuf_error disp rc
        else
          upd_display disp (with_bbgc (Some bbgc));;
          upd_display disp (with_dirty_rect rect_zero);;
          mret EOK.

(** The [error:] label of [ds_display_add_ddev]. *)
Definition add_ddev_error (disp ddev : ptr) (rc : errno_t) : M errno_t :=
  upd_display disp (with_rect rect_zero);;
  dd ← get_ddev ddev;
  match lddevs dd with
  | Some owner =>
      upd_display owner (λ d, with_ddevs (list_remove ddev (disp_ddevs d)) d)
  | None => mret ()
  end;;
  put_ddev ddev (mk_ddev (ddev_display dd) None (ddev_info_rect dd) (ddev_gc dd));;
  mret rc.

Definition ds_display_add_ddev (disp ddev : ptr) : M errno_t :=
  dd ← get_ddev ddev;
  assert (bool_decide (ddev_display dd = None));;
  assert (negb (link_used (lddevs dd)));;
  put_ddev ddev (mk_ddev (Some disp) (lddevs dd) (ddev_info_rect dd) (ddev_gc dd));;
  put_ddev ddev (mk_ddev (Some disp) (Some disp) (ddev_info_rect dd) (ddev_gc dd));;
  upd_display disp (λ d, with_ddevs (list_append ddev (disp_ddevs d)) d);;
  d ← get_display disp;
  if gfx_rect_is_empty (disp_rect d) then
    upd_display disp (with_rect (ddev_info_rect dd));;
    let '(rc, fbgc) := ds_clonegc_create env (ddev_gc dd) in
    if is_error rc then mret ENOMEM
    else
      upd_display disp (with_fbgc (Some fbgc));;
      rc ← ds_display_alloc_backbuf disp;
      if is_error rc then add_ddev_error disp ddev rc
      else mret EOK
  else
    let rc := ds_clonegc_add_output env (disp_fbgc d) (ddev_gc dd) in
    if is_error rc then add_ddev_error disp ddev rc
    else mret EOK.

(** ** Painting *)

(** [ds_display_invalidate_cb], with the display as its argument. *)
Definition ds_display_invalidate_cb (arg : ptr) (rect : gfx_rect_t) : M unit :=
  upd_display arg (λ d, with_dirty_rect (gfx_rect_envelope (disp_dirty_rect d) rect) d).

(** The invalidate callbacks a drawing call brought about, in order. *)
Fixpoint invalidate_all (disp : ptr) (rs : list gfx_rect_t) : M unit :=
  match rs with
  | [] => mret ()
  | r :: rest => ds_display_invalidate_cb disp r;; invalidate_all disp rest
  end.

(** A call into a drawing collaborator made while painting [disp]. *)
Definition draw (disp : ptr) (c : call_t) (answer : errno_t * list gfx_rect_t)
    : M errno_t :=
  log c;; invalidate_all disp (snd answer);; mret (fst answer).

Definition ds_display_paint_bg (disp : ptr) (rect : option gfx_rect_t) : M errno_t :=
  d ← get_display disp;
  let crect :=
    match rect with
    | Some r => gfx_rect_clip env (disp_rect d) r
    | None => disp_rect d
    end in
  gc ← ds_display_get_gc disp;
  match gc with
  | None => mret EOK
  | Some gc =>
      rc ← draw disp (call_set_color gc (disp_bg_color d))
             (gfx_set_color env gc (disp_bg_color d));
      if is_error rc then mret rc
      else draw disp (call_fill_rect gc crect) (gfx_fill_rect env gc crect)
  end.

Definition ds_display_update (disp : ptr) : M errno_t :=
  d ← get_display disp;
  match disp_backbuf d with
  | None => mret EOK
  | Some backbuf =>
      log (call_bitmap_render backbuf (disp_dirty_rect d));;
      let rc := gfx_bitmap_render env backbuf (disp_dirty_rect d) in
      if is_error rc then mret rc
      else
        upd_display disp (with_dirty_rect rect_zero);;
        mret EOK
  end.

(** The three loops of [ds_display_paint]; each takes the members still
    to visit, in visiting order, and [k] is the rest of the function. *)
Fixpoint paint_windows (disp : ptr) (rect : option gfx_rect_t) (wnds : list ptr)
    (k : M errno_t) : M errno_t :=
  match wnds with
  | [] => k
  | wnd :: rest =>
      rc ← draw disp (call_window_paint wnd rect) (ds_window_paint env wnd rect);
      if is_error rc then mret rc else paint_windows disp rect rest k
  end.

Fixpoint paint_previews (disp : ptr) (rect : option gfx_rect_t) (wnds : list ptr)
    (k : M errno_t) : M errno_t :=
  match wnds with
  | [] => k
  | wnd :: rest =>
      rc ← draw disp (call_window_paint_preview wnd rect)
             (ds_window_paint_preview env wnd rect);
      if is_error rc then mret rc else paint_previews disp rect rest k
  end.

Fixpoint paint_pointers (disp : ptr) (rect : option gfx_rect_t) (seats : list ptr)
    (k : M errno_t) : M errno_t :=
  match seats with
  | [] => k
  | seat :: rest =>
      rc ← draw disp (call_seat_paint_pointer seat rect)
             (ds_seat_paint_pointer env seat rect);
      if is_error rc then mret rc else paint_pointers disp rect rest k
  end.

Definition ds_display_paint (disp : ptr) (rect : option gfx_rect_t) : M errno_t :=
  rc ← ds_display_paint_bg disp rect;
  if is_error rc then mret rc
  else
    d ← get_display disp;
    paint_windows disp rect (reverse (disp_windows d))
      (d ← get_display disp;
       paint_previews disp rect (reverse (disp_windows d))
         (d ← get_display disp;
          paint_pointers disp rect (disp_seats d)
            (ds_display_update disp))).

End display.

(** ** Statements about the model *)

(** Front-to-back iteration order: every topmost window of the list
    comes before every window that is not topmost. *)
Definition topmost_first (wnds : ptr → ds_window_t) (l : list ptr) : Prop :=
  ∀ i j wi wj,
    l !! i = Some wi → l !! j = Some wj →
    is_topmost (wnds wi) = true → is_topmost (wnds wj) = false →
    i < j.

(** The operations on the window list. *)
Inductive window_op :=
  | op_add_window (display wnd : ptr)
  | op_remove_window (wnd : ptr)
  | op_window_to_top (wnd : ptr).

Definition run_window_op (o : window_op) : M unit :=
  match o with
  | op_add_window display wnd => ds_display_add_window display wnd
  | op_remove_window wnd => ds_display_remove_window wnd
  | op_window_to_top wnd => ds_display_window_to_top wnd
  end.

Fixpoint run_window_ops (ops : list window_op) : M unit :=
  match ops with
  | [] => mret ()
  | o :: rest => run_window_op o;; run_window_ops rest
  end.

(** The window list [ds_display_enlist_window] leaves. *)
Definition enlist_list (wnds : ptr → ds_window_t) (wnd : ptr) (l : list ptr)
    : list ptr :=
  if is_topmost (wnds wnd) then list_prepend wnd l
  else match first_non_topmost wnds l with
       | Some w => list_insert_before wnd w l
       | None => list_append wnd l
       end.

(** [topmost_first], by recursion on the list. *)
Fixpoint tf (wnds : ptr → ds_window_t) (l : list ptr) : Prop :=
  match l with
  | [] => True
  | a :: l' =>
      (is_topmost (wnds a) = false → Forall (λ b, is_topmost (wnds b) = false) l')
      ∧ tf wnds l'
  end.

(** The list the non-topmost branch of [ds_display_enlist_window]
    builds, by recursion on the list. *)
Fixpoint before_first_non_topmost (wnds : ptr → ds_window_t) (wnd : ptr)
    (l : list ptr) : list ptr :=
  match l with
  | [] => [wnd]
  | a :: l' =>
      if is_topmost (wnds a) then a :: before_first_non_topmost wnds wnd l'
      else wnd :: a :: l'
  end.

(** The store after [list_remove(&wnd->ldwindows)]. *)
Definition unlinked (wnd : ptr) (w : ds_world) : ds_world :=
  let wn := mem_window w wnd in
  mk_world
    (match ldwindows wn with
     | Some owner =>
         <[owner := with_windows (list_remove wnd (disp_windows (mem_display w owner)))
                      (mem_display w owner)]> (mem_display w)
     | None => mem_display w
     end)
    (mem_client w) (mem_wmclient w) (mem_seat w) (mem_cursor w) (mem_ddev w)
    (<[wnd := mk_window (wnd_display wn) None (wnd_id wn) (wnd_flags wn)]> (mem_window w))
    (calls w).

(** The store after [ds_display_enlist_window] has returned. *)
Definition enlisted (display wnd : ptr) (w : ds_world) : ds_world :=
  let wn := mem_window w wnd in
  mk_world
    (<[display := with_windows
                    (enlist_list (mem_window w) wnd (disp_windows (mem_display w display)))
                    (mem_display w display)]> (mem_display w))
    (mem_client w) (mem_wmclient w) (mem_seat w) (mem_cursor w) (mem_ddev w)
    (<[wnd := mk_window (wnd_display wn) (Some display) (wnd_id wn) (wnd_flags wn)]>
       (mem_window w))
    (calls w).

(** The store with further calls logged. *)
Definition logged (cs : list call_t) (w : ds_world) : ds_world :=
  mk_world (mem_display w) (mem_client w) (mem_wmclient w) (mem_seat w)
    (mem_cursor w) (mem_ddev w) (mem_window w) (calls w ++ cs).

(** The store with the window at [wnd] replaced. *)
Definition window_set (wnd : ptr) (v : ds_window_t) (w : ds_world) : ds_world :=
  mk_world (mem_display w) (mem_client w) (mem_wmclient w) (mem_seat w)
    (mem_cursor w) (mem_ddev w) (<[wnd := v]> (mem_window w)) (calls w).

(** The window lists of two stores, compared: the flags of every window
    agree and an ordered list stays ordered. *)
Definition keeps_order (w w' : ds_world) : Prop :=
  (∀ p, wnd_flags (mem_window w' p) = wnd_flags (mem_window w p)) ∧
  (∀ d, tf (mem_window w) (disp_windows (mem_display w d)) →
        tf (mem_window w') (disp_windows (mem_display w' d))).

(** ** Concrete stores and collaborators, for running the model *)

(** A store in which nothing is attached: every display is as
    [ds_display_create] leaves it, every device reports 800 by 600, and
    the window at address 2 is the only topmost one. *)
Definition world0 : ds_world :=
  mk_world
    (λ _, ds_display_created df_none 1%positive [])
    (λ _, mk_client None None)
    (λ _, mk_wmclient None None)
    (λ _, mk_seat None None)
    (λ _, mk_cursor None None)
    (λ _, mk_ddev None None (mk_rect (mk_coord2 0 0) (mk_coord2 800 600)) 7%positive)
    (λ p, mk_window None None (Z.pos p)
            (if decide (p = 2%positive) then wndf_topmost else 0%Z))
    [].

(** The same store with double-buffered displays. *)
Definition world0_double_buf : ds_world :=
  mk_world
    (λ _, ds_display_created df_disp_double_buf 1%positive [])
    (mem_client world0) (mem_wmclient world0) (mem_seat world0)
    (mem_cursor world0) (mem_ddev world0) (mem_window world0) [].

(** Collaborators that always succeed; filling a rectangle of a memory GC
    invalidates that rectangle. *)
Definition env_ok : ds_env :=
  mk_env (λ _ _, EOK) (λ _ _, EOK)
    (λ _, (EOK, 11%positive)) (λ _ _, EOK) (λ _, 12%positive)
    (λ _ _, (EOK, 13%positive)) (λ _, (EOK, 14%positive))
    (λ _ _, (EOK, 15%positive)) (λ _, 16%positive)
    (λ _ r, r)
    (λ _ _, (EOK, [])) (λ _ r, (EOK, [r]))
    (λ _ _, EOK)
    (λ _ _, (EOK, [])) (λ _ _, (EOK, [])) (λ _ _, (EOK, [])).

(** [env_ok], except that [ds_clonegc_create] fails. *)
Definition env_no_clonegc : ds_env :=
  mk_env (λ _ _, EOK) (λ _ _, EOK)
    (λ _, (EOTHER 5, 11%positive)) (λ _ _, EOK) (λ _, 12%positive)
    (λ _ _, (EOK, 13%positive)) (λ _, (EOK, 14%positive))
    (λ _ _, (EOK, 15%positive)) (λ _, 16%positive)
    (λ _ r, r)
    (λ _ _, (EOK, [])) (λ _ r, (EOK, [r]))
    (λ _ _, EOK)
    (λ _ _, (EOK, [])) (λ _ _, (EOK, [])) (λ _ _, (EOK, [])).

(** The store with the display at [disp] replaced. *)
Definition display_set (disp : ptr) (v : ds_display_t) (w : ds_world) : ds_world :=
  mk_world (<[disp := v]> (mem_display w)) (mem_client w) (mem_wmclient w)
    (mem_seat w) (mem_cursor w) (mem_ddev w) (mem_window w) (calls w).

(** [(disp->flags & df_disp_double_buf) != 0] *)
Definition double_buffered (d : ds_display_t) : bool :=
  negb (Z.land (disp_flags d) df_disp_double_buf =? 0)%Z.

(** Two states of a display that differ at most in the back buffer, its
    memory GC and the dirty rectangle. *)
Definition same_but_backbuf (d d' : ds_display_t) : Prop :=
  disp_clients d' = disp_clients d ∧ disp_wmclients d' = disp_wmclients d ∧
  disp_next_wnd_id d' = disp_next_wnd_id d ∧ disp_ddevs d' = disp_ddevs d ∧
  disp_seats d' = disp_seats d ∧ disp_windows d' = disp_windows d ∧
  disp_cursors d' = disp_cursors d ∧ disp_flags d' = disp_flags d ∧
  disp_rect d' = disp_rect d ∧ disp_bg_color d' = disp_bg_color d ∧
  disp_fbgc d' = disp_fbgc d.




(** [env_ok], except that [gfx_bitmap_create] fails. *)
Definition env_no_bitmap : ds_env :=
  mk_env (λ _ _, EOK) (λ _ _, EOK)
    (λ _, (EOK, 11%positive)) (λ _ _, EOK) (λ _, 12%positive)
    (λ _ _, (EOTHER 5, 13%positive)) (λ _, (EOK, 14%positive))
    (λ _ _, (EOK, 15%positive)) (λ _, 16%positive)
    (λ _ r, r)
    (λ _ _, (EOK, [])) (λ _ r, (EOK, [r]))
    (λ _ _, EOK)
    (λ _ _, (EOK, [])) (λ _ _, (EOK, [])) (λ _ _, (EOK, [])).

(** [env_ok], except that [ds_clonegc_add_output] fails. *)
Definition env_no_output : ds_env :=
  mk_env (λ _ _, EOK) (λ _ _, EOK)
    (λ _, (EOK, 11%positive)) (λ _ _, EOTHER 5) (λ _, 12%positive)
    (λ _ _, (EOK, 13%positive)) (λ _, (EOK, 14%positive))
    (λ _ _, (EOK, 15%positive)) (λ _, 16%positive)
    (λ _ r, r)
    (λ _ _, (EOK, [])) (λ _ r, (EOK, [r]))
    (λ _ _, EOK)
    (λ _ _, (EOK, [])) (λ _ _, (EOK, [])) (λ _ _, (EOK, [])).

(** The store a run has returned with ([world0] when it has not). *)
Definition world_of {A} (r : result (A * ds_world)) : ds_world :=
  match r with Ret (_, w) => w | Crash _ => world0 end.

(** ** The dirty rectangle *)

(** A rectangle given with [p0] not beyond [p1]. *)
Definition rect_sorted (r : gfx_rect_t) : Prop :=
  (x (p0 r) ≤ x (p1 r))%Z ∧ (y (p0 r) ≤ y (p1 r))%Z.

(** Every pixel of [a] is a pixel of [b]. *)
Definition rect_within (a b : gfx_rect_t) : Prop :=
  ∀ p, gfx_pix_inside_rect p a = true → gfx_pix_inside_rect p b = true.

(** [e] is the minimal bounding envelope of the rectangles [rs]: it
    covers each of them, and every rectangle that covers each of them
    covers [e]. *)
Definition min_envelope (rs : list gfx_rect_t) (e : gfx_rect_t) : Prop :=
  (∀ r, r ∈ rs → rect_within r e) ∧
  (∀ e', (∀ r, r ∈ rs → rect_within r e') → rect_within e e').

(** The store after the invalidate callbacks for [rs]. *)
Fixpoint invalidated (disp : ptr) (rs : list gfx_rect_t) (w : ds_world) : ds_world :=
  match rs with
  | [] => w
  | r :: rest =>
      invalidated disp rest
        (display_set disp
           (with_dirty_rect
              (gfx_rect_envelope (disp_dirty_rect (mem_display w disp)) r)
              (mem_display w disp))
           w)
  end.

(** ** The paint sequence *)

(** What a drawing collaborator answers to a call: its return code and
    the rectangles it has the memory GC invalidate.  Rendering the back
    buffer to the front draws into no memory GC. *)
Definition answer (env : ds_env) (c : call_t) : errno_t * list gfx_rect_t :=
  match c with
  | call_set_color gc color => gfx_set_color env gc color
  | call_fill_rect gc r => gfx_fill_rect env gc r
  | call_window_paint wnd r => ds_window_paint env wnd r
  | call_window_paint_preview wnd r => ds_window_paint_preview env wnd r
  | call_seat_paint_pointer seat r => ds_seat_paint_pointer env seat r
  | call_bitmap_render bm r => (gfx_bitmap_render env bm r, [])
  | _ => (EOK, [])
  end.

(** The store after the drawing calls [cs] made while painting [disp]. *)
Fixpoint drawn_all (env : ds_env) (disp : ptr) (cs : list call_t) (w : ds_world)
    : ds_world :=
  match cs with
  | [] => w
  | c :: rest =>
      drawn_all env disp rest (invalidated disp (snd (answer env c)) (logged [c] w))
  end.

(** Drawing calls made one after the other until one fails; [k] is what
    follows when none does. *)
Fixpoint run_draws (env : ds_env) (disp : ptr) (cs : list call_t) (k : M errno_t)
    : M errno_t :=
  match cs with
  | [] => k
  | c :: rest =>
      rc ← draw disp c (answer env c);
      if is_error rc then mret rc else run_draws env disp rest k
  end.

(** The context [ds_display_get_gc] returns when it returns. *)
Definition gc_of (env : ds_env) (d : ds_display_t) : option gfx_context_t :=
  if double_buffered d then mem_gc_get_ctx env <$> disp_bbgc d
  else ds_clonegc_get_ctx env <$> disp_fbgc d.

(** The drawing calls of [ds_display_paint] before the flush, in order:
    background, windows back to front, previews back to front, pointers. *)
Definition paint_steps (env : ds_env) (disp : ptr) (rect : option gfx_rect_t)
    (w : ds_world) : list call_t :=
  let d := mem_display w disp in
  let crect :=
    match rect with
    | Some r => gfx_rect_clip env (disp_rect d) r
    | None => disp_rect d
    end in
  match gc_of env d with
  | Some gc => [call_set_color gc (disp_bg_color d); call_fill_rect gc crect]
  | None => []
  end
  ++ map (λ wnd, call_window_paint wnd rect) (reverse (disp_windows d))
  ++ map (λ wnd, call_window_paint_preview wnd rect) (reverse (disp_windows d))
  ++ map (λ seat, call_seat_paint_pointer seat rect) (disp_seats d).

(** The rectangles invalidated during the calls [cs]. *)
Definition invalidations (env : ds_env) (cs : list call_t) : list gfx_rect_t :=
  concat (map (λ c, snd (answer env c)) cs).

(** A double-buffered display that has a memory GC but no cloning GC. *)
Definition world0_bbgc_only : ds_world :=
  display_set 1%positive
    (with_bbgc (Some 15%positive) (mem_display world0_double_buf 1%positive))
    world0_double_buf.


(** Windows 1, 2 and 3 added to display 1 of [world0], window 1 moved to
    the top, window 2 removed. *)
Definition example_window_ops : list window_op :=
  [op_add_window 1%positive 1%positive; op_add_window 1%positive 2%positive;
   op_add_window 1%positive 3%positive; op_window_to_top 1%positive;
   op_remove_window 2%positive].

Definition world_after_window_ops : ds_world :=
  world_of (run_window_ops example_window_ops world0).

(** Window 1 added to display 1 of [world0]. *)
Definition world_one_window : ds_world :=
  world_of (ds_display_add_window 1%positive 1%positive world0).



(** The back buffer of the double-buffered display 1 allocated. *)
Definition world_backbuf : ds_world :=
  world_of (ds_display_alloc_backbuf env_ok 1%positive world0_double_buf).

Definition example_rects : list gfx_rect_t :=
  [mk_rect (mk_coord2 0 0) (mk_coord2 100 100);
   mk_rect (mk_coord2 50 50) (mk_coord2 200 120)].


(** ** Further statements about the window lists *)

(** The window lists represent the intrusive lists of the windows: no
    window is twice in a list, a window is in the list of display [d]
    exactly when its link is in that list, and a window whose link is in
    the list of [d] has [d] as its display. *)
Definition windows_wf (w : ds_world) : Prop :=
  (∀ d, NoDup (disp_windows (mem_display w d))) ∧
  (∀ d p, p ∈ disp_windows (mem_display w d) ↔ ldwindows (mem_window w p) = Some d) ∧
  (∀ d p, ldwindows (mem_window w p) = Some d → wnd_display (mem_window w p) = Some d).

(** Windows 1, 2 (topmost) and 3 added to display 1 of [world0]: the list
    is 2, 3, 1. *)
Definition world_three_windows : ds_world :=
  world_of (run_window_ops
              [op_add_window 1%positive 1%positive; op_add_window 1%positive 2%positive;
               op_add_window 1%positive 3%positive] world0).

(** ** The rest of display.c *)

(** [display_info_t] (types/display/info.h): the display's rectangle. *)
Record display_info_t := mk_display_info { info_rect : gfx_rect_t }.

Definition ds_display_get_info (disp : ptr) : M display_info_t :=
  d ← get_display disp; mret (mk_display_info (disp_rect d)).

(** Modelled from the spec: [list_empty] of adt/list.h. *)
Definition list_empty (l : list ptr) : bool :=
  match l with [] => true | _ => false end.

(** [ds_display_destroy].  [gfx_color_delete] and [free] release memory,
    which the store does not keep track of. *)
Definition ds_display_destroy (disp : ptr) : M unit :=
  d ← get_display disp;
  assert (list_empty (disp_clients d));;
  assert (list_empty (disp_wmclients d));;
  assert (list_empty (disp_seats d));;
  mret ().

(** Modelled from the spec: [list_next] of adt/list.h, the member after
    [m] in the list, NULL when [m] is the last one. *)
Fixpoint list_next (m : ptr) (l : list ptr) : option ptr :=
  match l with
  | [] => None
  | n :: l' => if decide (n = m) then head l' else list_next m l'
  end.

(** Modelled from the spec: [list_prev] of adt/list.h, the member before
    [m] in the list, NULL when [m] is the first one. *)
Definition list_prev (m : ptr) (l : list ptr) : option ptr :=
  list_next m (reverse l).

(** The iterators read the list head through the member's display. *)
Definition ds_display_first_client (disp : ptr) : M (option ptr) :=
  d ← get_display disp; mret (list_first (disp_clients d)).


Definition ds_display_first_wmclient (disp : ptr) : M (option ptr) :=
  d ← get_display disp; mret (list_first (disp_wmclients d)).


Definition ds_display_next_window (wnd : ptr) : M (option ptr) :=
  wn ← get_window wnd;
  match wnd_display wn with
  | Some disp => d ← get_display disp; mret (list_next wnd (disp_windows d))
  | None => crash null_deref
  end.

Definition ds_display_prev_window (wnd : ptr) : M (option ptr) :=
  wn ← get_window wnd;
  match wnd_display wn with
  | Some disp => d ← get_display disp; mret (list_prev wnd (disp_windows d))
  | None => crash null_deref
  end.


Definition ds_display_first_ddev (disp : ptr) : M (option ptr) :=
  d ← get_display disp; mret (list_first (disp_ddevs d)).


(** The loop [wnd = ds_display_first_window(d); while (wnd != NULL) {
    ...; wnd = ds_display_next_window(wnd); }]: the windows it visits.
    [fuel] bounds the number of rounds. *)
Fixpoint windows_forward (fuel : nat) (cur : option ptr) : M (list ptr) :=
  match cur, fuel with
  | Some wnd, S fuel' =>
      next ← ds_display_next_window wnd;
      rest ← windows_forward fuel' next;
      mret (wnd :: rest)
  | _, _ => mret []
  end.

(** The same loop from [ds_display_last_window] with
    [ds_display_prev_window], as in [ds_display_paint]. *)
Fixpoint windows_backward (fuel : nat) (cur : option ptr) : M (list ptr) :=
  match cur, fuel with
  | Some wnd, S fuel' =>
      prev ← ds_display_prev_window wnd;
      rest ← windows_backward fuel' prev;
      mret (wnd :: rest)
  | _, _ => mret []
  end.

(** The scan of [ds_display_enlist_window] as the source writes it:
    [while (w != NULL && (w->flags & wndf_topmost) != 0)
       w = ds_display_next_window(w);] *)
Fixpoint scan_topmost (fuel : nat) (cur : option ptr) : M (option ptr) :=
  match cur, fuel with
  | Some wnd, S fuel' =>
      wn ← get_window wnd;
      if negb (Z.land (wnd_flags wn) wndf_topmost =? 0)%Z then
        next ← ds_display_next_window wnd; scan_topmost fuel' next
      else mret (Some wnd)
  | _, _ => mret cur
  end.

Section lookups.

(** [ds_client_find_window] (client.c is not under src/): the window of
    a client with a given id, or NULL. *)
Context (ds_client_find_window : ptr → Z → option ptr).

(** The loop of [ds_display_find_window] over the clients still to ask. *)
Fixpoint find_window_in (clients : list ptr) (id : Z) : option ptr :=
  match clients with
  | [] => None
  | client :: rest =>
      match ds_client_find_window client id with
      | Some wnd => Some wnd
      | None => find_window_in rest id
      end
  end.

Definition ds_display_find_window (display : ptr) (id : Z) : M (option ptr) :=
  d ← get_display display; mret (find_window_in (disp_clients d) id).

(** The fields [dpos] and [rect] of the windows, and [gfx_rect_translate]
    (lib/gfx coord.c is not under src/). *)
Context (wnd_dpos : ptr → gfx_coord2_t) (wnd_rect : ptr → gfx_rect_t).
Context (gfx_rect_translate : gfx_coord2_t → gfx_rect_t → gfx_rect_t).

(** The window's bounding rectangle on the display contains [pos]. *)
Definition window_at (pos : gfx_coord2_t) (wnd : ptr) : bool :=
  gfx_pix_inside_rect pos (gfx_rect_translate (wnd_dpos wnd) (wnd_rect wnd)).

(** The loop of [ds_display_window_by_pos] over the windows still to
    test. *)
Fixpoint window_by_pos_in (wnds : list ptr) (pos : gfx_coord2_t) : option ptr :=
  match wnds with
  | [] => None
  | wnd :: rest => if window_at pos wnd then Some wnd else window_by_pos_in rest pos
  end.

Definition ds_display_window_by_pos (display : ptr) (pos : gfx_coord2_t)
    : M (option ptr) :=
  d ← get_display display; mret (window_by_pos_in (disp_windows d) pos).

End lookups.

(** Modelled from the spec: [gfx_rect_translate] (lib/gfx coord.c is not
    under src/), the rectangle moved by an offset; coordinates are taken
    where the sums stay within [gfx_coord_t]. *)
Definition gfx_rect_translate_offs (offs : gfx_coord2_t) (r : gfx_rect_t) : gfx_rect_t :=
  mk_rect (mk_coord2 (x (p0 r) + x offs) (y (p0 r) + y offs))
          (mk_coord2 (x (p1 r) + x offs) (y (p1 r) + y offs)).

(** Two states of a display with the same members in every collection
    but the device list. *)
Definition same_collections (d d' : ds_display_t) : Prop :=
  disp_clients d' = disp_clients d ∧ disp_wmclients d' = disp_wmclients d ∧
  disp_seats d' = disp_seats d ∧ disp_windows d' = disp_windows d ∧
  disp_cursors d' = disp_cursors d.

(** Device 1 attached to the double-buffered display 1, everything
    succeeding. *)
Definition world_one_ddev_db : ds_world :=
  world_of (ds_display_add_ddev env_ok 1%positive 1%positive world0_double_buf).

(** Every window 10 by 10 at the origin of the display. *)
Definition example_dpos (wnd : ptr) : gfx_coord2_t := mk_coord2 0 0.
Definition example_rect (wnd : ptr) : gfx_rect_t :=
  mk_rect (mk_coord2 0 0) (mk_coord2 10 10).

(** * Properties *)

Ltac msimpl :=
  cbv [mbind mret M_bind M_ret get_window put_window get_display put_display
       get_client put_client get_wmclient put_wmclient get_seat put_seat
       get_cursor put_cursor get_ddev put_ddev
       get_world set_ldwindows upd_display log crash] in *.

(** ** The window list *)

Section window_list.

Context (wnds : ptr → ds_window_t).

Local Abbreviation top w := (is_topmost (wnds w) = true).
Local Abbreviation ntop w := (is_topmost (wnds w) = false).

Lemma topmost_first_tf l : topmost_first wnds l ↔ tf wnds l.
Proof.
  induction l as [|a l IH]; simpl.
  - split; [done|]. intros _ i j wi wj Hi. by rewrite lookup_nil in Hi.
  - rewrite <- IH. split.
    + intros H. split.
      * intros Ha. apply Forall_forall. intros b Hb.
        apply list_elem_of_lookup in Hb as [j Hj].
        destruct (is_topmost (wnds b)) eqn:Eb; [|done].
        specialize (H (S j) 0 b a Hj eq_refl Eb Ha). lia.
      * intros i j wi wj Hi Hj Ti Tj.
        specialize (H (S i) (S j) wi wj Hi Hj Ti Tj). lia.
    + intros [Ha Hl] i j wi wj Hi Hj Ti Tj.
      destruct i as [|i], j as [|j]; simpl in *.
      * congruence.
      * lia.
      * injection Hj as ->. specialize (Ha Tj).
        rewrite Forall_forall in Ha.
        assert (wi ∈ l) as Hin by (apply list_elem_of_lookup; eauto).
        specialize (Ha _ Hin). congruence.
      * specialize (Hl i j wi wj Hi Hj Ti Tj). lia.
Qed.

Lemma tf_remove m l : tf wnds l → tf wnds (list_remove m l).
Proof.
  unfold list_remove. induction l as [|a l IH]; simpl; [done|].
  intros [Ha Hl]. rewrite filter_cons. case_decide; simpl; [|by auto].
  split; [|by auto]. intros Hn. specialize (Ha Hn).
  rewrite Forall_forall in Ha. apply Forall_forall. intros b Hb.
  apply list_elem_of_filter in Hb as [_ Hb]. auto.
Qed.

Lemma first_non_topmost_Some l w :
  first_non_topmost wnds l = Some w → ntop w.
Proof.
  induction l as [|a l IH]; simpl; [done|].
  destruct (is_topmost (wnds a)) eqn:Ea; [done|]. by intros [= <-].
Qed.

Lemma enlist_list_ntop wnd l :
  ntop wnd → enlist_list wnds wnd l = before_first_non_topmost wnds wnd l.
Proof.
  intros Hw. unfold enlist_list. rewrite Hw.
  induction l as [|a l IH]; simpl; [done|].
  destruct (is_topmost (wnds a)) eqn:Ea.
  - destruct (first_non_topmost wnds l) as [w|] eqn:Ew.
    + apply first_non_topmost_Some in Ew as Hn.
      destruct (decide (a = w)) as [->|]; [congruence|]. by rewrite IH.
    + unfold list_append in *. simpl. by rewrite IH.
  - by rewrite decide_True.
Qed.

Lemma enlist_list_top wnd l : top wnd → enlist_list wnds wnd l = wnd :: l.
Proof. intros Hw. unfold enlist_list. by rewrite Hw. Qed.

Lemma before_first_non_topmost_split wnd t r :
  Forall (λ b, top b) t →
  match r with [] => True | w :: _ => ntop w end →
  before_first_non_topmost wnds wnd (t ++ r) = t ++ wnd :: r.
Proof.
  intros Ht Hr. induction Ht as [|a t Ha _ IH]; simpl.
  - destruct r as [|w r]; simpl; [done|]. by rewrite Hr.
  - by rewrite Ha, IH.
Qed.

Lemma tf_enlist wnd l : tf wnds l → tf wnds (enlist_list wnds wnd l).
Proof.
  destruct (is_topmost (wnds wnd)) eqn:Ew.
  - rewrite enlist_list_top by done. simpl. intros H. split; [congruence|done].
  - rewrite enlist_list_ntop by done.
    induction l as [|a l IH]; simpl.
    + intros _. split; [|done]. by intros _.
    + intros [Ha Hl]. destruct (is_topmost (wnds a)) eqn:Ea; simpl.
      * split; [congruence|by auto].
      * split; [|split; auto]. intros _. constructor; [done|by auto].
Qed.

Lemma remove_enlist_idem wnd l :
  list_remove wnd (enlist_list wnds wnd (list_remove wnd l)) = list_remove wnd l.
Proof.
  assert (∀ k, wnd ∉ k → list_remove wnd (enlist_list wnds wnd k) = k) as H.
  { intros k Hk. unfold list_remove.
    assert (filter (λ n, n ≠ wnd) k = k) as Hid.
    { induction k as [|a k IH]; [done|].
      rewrite filter_cons. apply not_elem_of_cons in Hk as [? ?].
      rewrite decide_True by done. by rewrite IH. }
    destruct (is_topmost (wnds wnd)) eqn:Ew.
    - rewrite enlist_list_top by done. rewrite filter_cons.
      rewrite decide_False by (intros ?; done). done.
    - rewrite enlist_list_ntop by done. clear Hid.
      induction k as [|a k IH]; simpl.
      + rewrite filter_cons. by rewrite decide_False by (intros ?; done).
      + apply not_elem_of_cons in Hk as [Hne Hk].
        destruct (is_topmost (wnds a)) eqn:Ea.
        * rewrite !filter_cons. rewrite decide_True by done. by rewrite IH.
        * rewrite filter_cons. rewrite decide_False by (intros ?; done).
          rewrite filter_cons. rewrite decide_True by done. f_equal.
          clear IH Ea. induction k as [|b k IH]; [done|].
          apply not_elem_of_cons in Hk as [? ?].
          rewrite filter_cons, decide_True by done. by rewrite IH. }
  apply H. unfold list_remove. rewrite list_elem_of_filter. by intros [? _].
Qed.

End window_list.

(** ** Running the window operations *)

Lemma bind_ret_inv {A B} (m : M A) (f : A → M B) w b w' :
  (m ≫= f) w = Ret (b, w') →
  ∃ a w1, m w = Ret (a, w1) ∧ f a w1 = Ret (b, w').
Proof.
  unfold mbind, M_bind. destruct (m w) as [[a w1]|c]; [|done]. eauto.
Qed.

Lemma bind_ret {A B} (m : M A) (f : A → M B) w a w1 :
  m w = Ret (a, w1) → (m ≫= f) w = f a w1.
Proof. unfold mbind, M_bind. by intros ->. Qed.

Lemma unlink_window_eq wnd w : unlink_window wnd w = Ret ((), unlinked wnd w).
Proof.
  unfold unlink_window, unlinked. msimpl.
  by destruct (ldwindows (mem_window w wnd)).
Qed.

Lemma enlist_window_eq display wnd w :
  wnd_display (mem_window w wnd) = Some display →
  ldwindows (mem_window w wnd) = None →
  ds_display_enlist_window display wnd w = Ret ((), enlisted display wnd w).
Proof.
  intros Hd Hl. unfold ds_display_enlist_window, enlisted, enlist_list, is_topmost.
  msimpl. rewrite Hd, Hl, bool_decide_eq_true_2 by done. simpl.
  destruct (Z.land _ _ =? 0)%Z; simpl; [|by rewrite ?Hd].
  destruct (first_non_topmost _ _); simpl; by rewrite ?Hd.
Qed.

Lemma enlist_window_inv display wnd w w' :
  ds_display_enlist_window display wnd w = Ret ((), w') →
  wnd_display (mem_window w wnd) = Some display ∧
  ldwindows (mem_window w wnd) = None ∧
  w' = enlisted display wnd w.
Proof.
  intros H.
  assert (wnd_display (mem_window w wnd) = Some display ∧
          ldwindows (mem_window w wnd) = None) as [Hd Hl].
  { revert H. unfold ds_display_enlist_window. msimpl.
    case_bool_decide; simpl; [|done].
    destruct (ldwindows (mem_window w wnd)); simpl; done. }
  rewrite enlist_window_eq in H by done. by injection H as <-.
Qed.

Lemma post_wnd_added_events_eq wms id w :
  post_wnd_added_events wms id w
  = Ret ((), logged (map (λ wm, call_wnd_added wm id) wms) w).
Proof.
  revert w. induction wms as [|wm wms IH]; intros w; simpl.
  - unfold logged. rewrite app_nil_r. by destruct w.
  - msimpl. rewrite IH. unfold logged. simpl. by rewrite <- app_assoc.
Qed.

Lemma post_wnd_removed_events_eq wms id w :
  post_wnd_removed_events wms id w
  = Ret ((), logged (map (λ wm, call_wnd_removed wm id) wms) w).
Proof.
  revert w. induction wms as [|wm wms IH]; intros w; simpl.
  - unfold logged. rewrite app_nil_r. by destruct w.
  - msimpl. rewrite IH. unfold logged. simpl. by rewrite <- app_assoc.
Qed.

Lemma tf_ext wnds wnds' l :
  (∀ p, wnd_flags (wnds' p) = wnd_flags (wnds p)) → tf wnds l → tf wnds' l.
Proof.
  intros Hf. assert (∀ p, is_topmost (wnds' p) = is_topmost (wnds p)) as Ht.
  { intros p. unfold is_topmost. by rewrite Hf. }
  induction l as [|a l IH]; simpl; [done|].
  intros [Ha Hl]. split; [|by auto].
  rewrite Ht. intros Hn. specialize (Ha Hn).
  eapply Forall_impl; [exact Ha|]. intros b. simpl. by rewrite Ht.
Qed.

Lemma keeps_order_refl w : keeps_order w w.
Proof. by split. Qed.

Lemma keeps_order_trans w1 w2 w3 :
  keeps_order w1 w2 → keeps_order w2 w3 → keeps_order w1 w3.
Proof.
  intros [F1 T1] [F2 T2]. split.
  - intros p. by rewrite F2, F1.
  - auto.
Qed.

Lemma flags_insert_same (wnds : ptr → ds_window_t) wnd v p :
  wnd_flags v = wnd_flags (wnds wnd) →
  wnd_flags ((<[wnd := v]> wnds) p) = wnd_flags (wnds p).
Proof.
  intros Hv. destruct (decide (wnd = p)) as [->|Hne].
  - by rewrite fn_lookup_insert.
  - by rewrite fn_lookup_insert_ne.
Qed.

Lemma keeps_order_window_set wnd v w :
  wnd_flags v = wnd_flags (mem_window w wnd) →
  keeps_order w (window_set wnd v w).
Proof.
  intros Hv. split; simpl.
  - intros p. by apply flags_insert_same.
  - intros d. apply tf_ext. intros p. by apply flags_insert_same.
Qed.

Lemma keeps_order_logged cs w : keeps_order w (logged cs w).
Proof. by split. Qed.

Lemma keeps_order_unlinked wnd w : keeps_order w (unlinked wnd w).
Proof.
  split; simpl.
  - intros p. by apply flags_insert_same.
  - intros d Hd. eapply tf_ext; [intros p; by apply flags_insert_same|].
    destruct (ldwindows (mem_window w wnd)) as [owner|]; [|done].
    destruct (decide (owner = d)) as [->|Hne].
    + rewrite fn_lookup_insert. simpl. by apply tf_remove.
    + by rewrite fn_lookup_insert_ne.
Qed.

Lemma keeps_order_enlisted display wnd w : keeps_order w (enlisted display wnd w).
Proof.
  split; simpl.
  - intros p. by apply flags_insert_same.
  - intros d Hd. eapply tf_ext; [intros p; by apply flags_insert_same|].
    destruct (decide (display = d)) as [->|Hne].
    + rewrite fn_lookup_insert. simpl. by apply tf_enlist.
    + by rewrite fn_lookup_insert_ne.
Qed.

Lemma window_set_eq wnd v w : put_window wnd v w = Ret ((), window_set wnd v w).
Proof. done. Qed.

Lemma add_window_eq display wnd w :
  wnd_display (mem_window w wnd) = None →
  ldwindows (mem_window w wnd) = None →
  let wn := mem_window w wnd in
  ds_display_add_window display wnd w
  = Ret ((), logged (map (λ wm, call_wnd_added wm (wnd_id wn))
                       (disp_wmclients (mem_display w display)))
               (enlisted display wnd
                  (window_set wnd (mk_window (Some display) None (wnd_id wn) (wnd_flags wn))
                     w))).
Proof.
  intros Hd Hl wn. unfold ds_display_add_window.
  rewrite (bind_ret _ _ w (mem_window w wnd) w) by done.
  rewrite Hd, Hl. simpl.
  rewrite (bind_ret _ _ w () w) by done.
  rewrite (bind_ret _ _ w () w) by done.
  erewrite bind_ret by apply window_set_eq.
  erewrite bind_ret.
  2:{ apply enlist_window_eq; simpl; by rewrite fn_lookup_insert. }
  erewrite bind_ret by done.
  rewrite post_wnd_added_events_eq. simpl. rewrite fn_lookup_insert. done.
Qed.

Lemma add_window_inv display wnd w w' :
  ds_display_add_window display wnd w = Ret ((), w') →
  wnd_display (mem_window w wnd) = None ∧ ldwindows (mem_window w wnd) = None.
Proof.
  unfold ds_display_add_window. msimpl.
  case_bool_decide; simpl; [|done].
  destruct (ldwindows (mem_window w wnd)); simpl; done.
Qed.

Lemma remove_window_eq wnd w disp :
  wnd_display (mem_window w wnd) = Some disp →
  let wn := mem_window w wnd in
  ds_display_remove_window wnd w
  = Ret ((), logged (map (λ wm, call_wnd_removed wm (wnd_id wn))
                       (disp_wmclients (mem_display (unlinked wnd w) disp)))
               (window_set wnd (mk_window None None (wnd_id wn) (wnd_flags wn))
                  (unlinked wnd w))).
Proof.
  intros Hd wn. unfold ds_display_remove_window.
  rewrite (bind_ret _ _ w (mem_window w wnd) w) by done.
  erewrite bind_ret by apply unlink_window_eq.
  erewrite bind_ret by apply window_set_eq.
  rewrite Hd. erewrite bind_ret by done.
  by rewrite post_wnd_removed_events_eq.
Qed.

Lemma remove_window_inv wnd w w' :
  ds_display_remove_window wnd w = Ret ((), w') →
  ∃ disp, wnd_display (mem_window w wnd) = Some disp.
Proof.
  unfold ds_display_remove_window.
  rewrite (bind_ret _ _ w (mem_window w wnd) w) by done.
  erewrite bind_ret by apply unlink_window_eq.
  erewrite bind_ret by apply window_set_eq.
  destruct (wnd_display (mem_window w wnd)); [eauto|done].
Qed.

Lemma window_to_top_eq wnd w display owner :
  wnd_display (mem_window w wnd) = Some display →
  ldwindows (mem_window w wnd) = Some owner →
  ds_display_window_to_top wnd w = Ret ((), enlisted display wnd (unlinked wnd w)).
Proof.
  intros Hd Hl. unfold ds_display_window_to_top.
  rewrite (bind_ret _ _ w (mem_window w wnd) w) by done.
  rewrite Hd, Hl. simpl.
  rewrite (bind_ret _ _ w () w) by done.
  rewrite (bind_ret _ _ w () w) by done.
  erewrite bind_ret by apply unlink_window_eq.
  apply enlist_window_eq; simpl; rewrite fn_lookup_insert; simpl; done.
Qed.

Lemma window_to_top_inv wnd w w' :
  ds_display_window_to_top wnd w = Ret ((), w') →
  ∃ display owner,
    wnd_display (mem_window w wnd) = Some display ∧
    ldwindows (mem_window w wnd) = Some owner.
Proof.
  unfold ds_display_window_to_top. msimpl.
  destruct (wnd_display (mem_window w wnd)) as [display|]; simpl; [|done].
  destruct (ldwindows (mem_window w wnd)) as [owner|]; simpl; [|done]. eauto.
Qed.

Lemma run_window_op_keeps_order o w w' :
  run_window_op o w = Ret ((), w') → keeps_order w w'.
Proof.
  destruct o as [display wnd|wnd|wnd]; simpl; intros H.
  - destruct (add_window_inv _ _ _ _ H) as [Hd Hl].
    rewrite add_window_eq in H by done. injection H as <-.
    eapply keeps_order_trans; [|apply keeps_order_logged].
    eapply keeps_order_trans; [|apply keeps_order_enlisted].
    by apply keeps_order_window_set.
  - destruct (remove_window_inv _ _ _ H) as [disp Hd].
    rewrite (remove_window_eq _ _ disp) in H by done. injection H as <-.
    eapply keeps_order_trans; [|apply keeps_order_logged].
    eapply keeps_order_trans; [apply keeps_order_unlinked|].
    apply keeps_order_window_set. simpl. by rewrite fn_lookup_insert.
  - destruct (window_to_top_inv _ _ _ H) as (display & owner & Hd & Hl).
    rewrite (window_to_top_eq _ _ display owner) in H by done. injection H as <-.
    eapply keeps_order_trans; [apply keeps_order_unlinked|].
    apply keeps_order_enlisted.
Qed.

Lemma run_window_ops_keeps_order ops w w' :
  run_window_ops ops w = Ret ((), w') → keeps_order w w'.
Proof.
  revert w. induction ops as [|o ops IH]; intros w; simpl.
  - intros [= <-]. apply keeps_order_refl.
  - intros H. apply bind_ret_inv in H as ([] & w1 & H1 & H2).
    eapply keeps_order_trans; [by eapply run_window_op_keeps_order|by apply IH].
Qed.

(** C1. For every display and every sequence of [ds_display_add_window],
    [ds_display_remove_window] and [ds_display_window_to_top] calls: a
    created display has an ordered (empty) window list, and after any
    run of such calls that has returned, the window list of the display
    still has every topmost window in front of every window that is not
    topmost.  A prefix of a sequence is a sequence, so this is the state
    between any two operations. *)
Theorem window_list_topmost_first :
  (∀ wnds flags bg cursors,
     topmost_first wnds (disp_windows (ds_display_created flags bg cursors))) ∧
  (∀ (ops : list window_op) (w w' : ds_world) (d : ptr),
     topmost_first (mem_window w) (disp_windows (mem_display w d)) →
     run_window_ops ops w = Ret ((), w') →
     topmost_first (mem_window w') (disp_windows (mem_display w' d))).
Proof.
  split.
  - intros wnds flags bg cursors. by apply topmost_first_tf.
  - intros ops w w' d H0 Hrun. apply topmost_first_tf.
    apply run_window_ops_keeps_order in Hrun as [_ Hk].
    apply Hk. by apply topmost_first_tf.
Qed.

Lemma is_topmost_ext (wnds wnds' : ptr → ds_window_t) p :
  wnd_flags (wnds' p) = wnd_flags (wnds p) →
  is_topmost (wnds' p) = is_topmost (wnds p).
Proof. unfold is_topmost. by intros ->. Qed.

Lemma enlist_list_ext wnds wnds' wnd l :
  (∀ p, wnd_flags (wnds' p) = wnd_flags (wnds p)) →
  enlist_list wnds' wnd l = enlist_list wnds wnd l.
Proof.
  intros Hf. unfold enlist_list. rewrite (is_topmost_ext wnds wnds') by done.
  assert (first_non_topmost wnds' l = first_non_topmost wnds l) as ->; [|done].
  induction l as [|a l IH]; simpl; [done|].
  by rewrite (is_topmost_ext wnds wnds'), IH.
Qed.

(** What [ds_display_add_window] does to the window list of its display
    and to the windows. *)
Lemma add_window_spec display wnd w :
  wnd_display (mem_window w wnd) = None →
  ldwindows (mem_window w wnd) = None →
  ∃ w',
    ds_display_add_window display wnd w = Ret ((), w') ∧
    disp_windows (mem_display w' display)
    = enlist_list (mem_window w) wnd (disp_windows (mem_display w display)) ∧
    (∀ p, wnd_flags (mem_window w' p) = wnd_flags (mem_window w p)) ∧
    (∀ p, p ≠ wnd → mem_window w' p = mem_window w p).
Proof.
  intros Hd Hl. eexists. split; [by apply add_window_eq|]. simpl.
  rewrite !fn_lookup_insert. simpl. split; [|split].
  - apply enlist_list_ext. intros p. by apply flags_insert_same.
  - intros p. rewrite flags_insert_same; [|by rewrite fn_lookup_insert].
    by apply flags_insert_same.
  - intros p Hp. by rewrite !fn_lookup_insert_ne.
Qed.

(** C2. [ds_display_enlist_window], called as its assertions require,
    returns; it puts a topmost window at the front of the whole list, a
    window that is not topmost immediately before the first entry that is
    not topmost, and at the end when there is no such entry.  From a
    display without windows, adding A (not topmost) and then B (topmost)
    gives the order [B, A], and adding C (not topmost) after that gives
    [B, C, A]. *)
Theorem enlist_window_policy :
  (∀ (display wnd : ptr) (w : ds_world),
     wnd_display (mem_window w wnd) = Some display →
     ldwindows (mem_window w wnd) = None →
     ∃ w',
       ds_display_enlist_window display wnd w = Ret ((), w') ∧
       let wnds := mem_window w in
       let l := disp_windows (mem_display w display) in
       let l' := disp_windows (mem_display w' display) in
       (is_topmost (wnds wnd) = true → l' = wnd :: l) ∧
       (is_topmost (wnds wnd) = false →
        ∀ t v r, l = t ++ v :: r →
                 Forall (λ u, is_topmost (wnds u) = true) t →
                 is_topmost (wnds v) = false →
                 l' = t ++ wnd :: v :: r) ∧
       (is_topmost (wnds wnd) = false →
        Forall (λ u, is_topmost (wnds u) = true) l →
        l' = l ++ [wnd])) ∧
  (∀ (display a b c : ptr) (w : ds_world),
     a ≠ b → a ≠ c → b ≠ c →
     disp_windows (mem_display w display) = [] →
     (∀ p, p ∈ [a; b; c] →
           wnd_display (mem_window w p) = None ∧ ldwindows (mem_window w p) = None) →
     is_topmost (mem_window w a) = false →
     is_topmost (mem_window w b) = true →
     is_topmost (mem_window w c) = false →
     ∃ w1 w2 w3,
       ds_display_add_window display a w = Ret ((), w1) ∧
       ds_display_add_window display b w1 = Ret ((), w2) ∧
       disp_windows (mem_display w2 display) = [b; a] ∧
       ds_display_add_window display c w2 = Ret ((), w3) ∧
       disp_windows (mem_display w3 display) = [b; c; a]).
Proof.
  split.
  - intros display wnd w Hd Hl. eexists. split; [by apply enlist_window_eq|].
    simpl. rewrite fn_lookup_insert. simpl. split; [|split].
    + intros Ht. by apply enlist_list_top.
    + intros Ht t v r -> Hall Hv. rewrite enlist_list_ntop by done.
      by apply before_first_non_topmost_split.
    + intros Ht Hall. rewrite enlist_list_ntop by done.
      rewrite <- (app_nil_r (disp_windows _)) at 1.
      by rewrite before_first_non_topmost_split.
  - intros display a b c w Hab Hac Hbc Hnil Hfree Ha Hb Hc.
    destruct (Hfree a) as [Hda Hla]; [repeat constructor|].
    destruct (Hfree b) as [Hdb Hlb]; [repeat constructor|].
    destruct (Hfree c) as [Hdc Hlc]; [repeat constructor|].
    destruct (add_window_spec display a w Hda Hla) as (w1 & R1 & L1 & F1 & O1).
    destruct (add_window_spec display b w1) as (w2 & R2 & L2 & F2 & O2).
    { by rewrite O1. } { by rewrite O1. }
    destruct (add_window_spec display c w2) as (w3 & R3 & L3 & F3 & O3).
    { by rewrite O2, O1. } { by rewrite O2, O1. }
    exists w1, w2, w3.
    rewrite Hnil in L1. rewrite enlist_list_ntop in L1 by done. simpl in L1.
    rewrite L1 in L2. rewrite enlist_list_top in L2.
    2:{ rewrite (is_topmost_ext (mem_window w)); [done|apply F1]. }
    rewrite L2 in L3. rewrite enlist_list_ntop in L3.
    2:{ rewrite (is_topmost_ext (mem_window w)); [done|by rewrite F2, F1]. }
    simpl in L3.
    rewrite (is_topmost_ext (mem_window w) _ b) in L3 by (by rewrite F2, F1).
    rewrite Hb in L3.
    rewrite (is_topmost_ext (mem_window w) _ a) in L3 by (by rewrite F2, F1).
    rewrite Ha in L3. done.
Qed.

(** What [ds_display_window_to_top] does to a window enlisted in the
    window list of its display [d]. *)
Lemma window_to_top_spec wnd w d :
  wnd_display (mem_window w wnd) = Some d →
  ldwindows (mem_window w wnd) = Some d →
  ∃ w1,
    ds_display_window_to_top wnd w = Ret ((), w1) ∧
    (∀ p, mem_window w1 p = mem_window w p) ∧
    mem_display w1 d
    = with_windows
        (enlist_list (mem_window w) wnd
           (list_remove wnd (disp_windows (mem_display w d))))
        (mem_display w d) ∧
    (∀ p, p ≠ d → mem_display w1 p = mem_display w p) ∧
    calls w1 = calls w.
Proof.
  intros Hd Hl. eexists. split; [by eapply window_to_top_eq|].
  simpl. rewrite Hl. rewrite !fn_lookup_insert. simpl.
  split; [|split; [|split]].
  - intros p. destruct (decide (wnd = p)) as [<-|Hne].
    + rewrite fn_lookup_insert. destruct (mem_window w wnd) as [dd ll ii ff].
      simpl in *. by subst.
    + by rewrite !fn_lookup_insert_ne.
  - unfold with_windows. simpl. f_equal.
    apply enlist_list_ext. intros p. by apply flags_insert_same.
  - intros p Hp. by rewrite !fn_lookup_insert_ne.
  - done.
Qed.


(** ** Seats and input events *)

(** C7. [ds_display_seat_by_idev] returns the first seat of the display's
    seat list, NULL for an empty list, whatever the device id; so
    [ds_display_post_kbd_event] and [ds_display_post_ptd_event] deliver
    to that seat, and return [EOK] without a call when there is none. *)
Theorem seat_by_idev_first_seat (env : ds_env) (disp : ptr) (w : ds_world) :
  let first := head (disp_seats (mem_display w disp)) in
  ds_display_first_seat disp w = Ret (first, w) ∧
  (∀ idev_id, ds_display_seat_by_idev disp idev_id w = Ret (first, w)) ∧
  (∀ event,
     ds_display_post_kbd_event env disp event w
     = match first with
       | Some seat =>
           Ret (ds_seat_post_kbd_event env seat event,
                logged [call_seat_post_kbd seat event] w)
       | None => Ret (EOK, w)
       end) ∧
  (∀ event,
     ds_display_post_ptd_event env disp event w
     = match first with
       | Some seat =>
           Ret (ds_seat_post_ptd_event env seat event,
                logged [call_seat_post_ptd seat event] w)
       | None => Ret (EOK, w)
       end).
Proof.
  simpl. split; [done|]. split; [done|]. split.
  - intros event. unfold ds_display_post_kbd_event, ds_display_seat_by_idev,
      ds_display_first_seat, list_first. msimpl.
    by destruct (head _).
  - intros event. unfold ds_display_post_ptd_event, ds_display_seat_by_idev,
      ds_display_first_seat, list_first. msimpl.
    by destruct (head _).
Qed.

(** ** Back buffer and display devices *)

Ltac fn_simpl :=
  repeat first [ rewrite fn_lookup_insert
               | rewrite fn_lookup_insert_ne by done ].

Lemma is_error_EOK rc : is_error rc = false ↔ rc = EOK.
Proof. by destruct rc. Qed.

Lemma is_error_not_EOK rc : is_error rc = true ↔ rc ≠ EOK.
Proof. by destruct rc. Qed.

Lemma alloc_backbuf_error_eq disp rc w :
  alloc_backbuf_error disp rc w
  = Ret (rc, match disp_backbuf (mem_display w disp) with
             | Some bm =>
                 display_set disp
                   (with_backbuf None (mem_display (logged [call_bitmap_destroy bm] w) disp))
                   (logged [call_bitmap_destroy bm] w)
             | None => w
             end).
Proof.
  unfold alloc_backbuf_error. msimpl.
  by destruct (disp_backbuf (mem_display w disp)).
Qed.

Lemma get_unbuf_gc_eq env display w :
  ds_display_get_unbuf_gc env display w
  = Ret (ds_clonegc_get_ctx env <$> disp_fbgc (mem_display w display), w).
Proof.
  unfold ds_display_get_unbuf_gc. msimpl. by destruct (disp_fbgc _).
Qed.

(** What [ds_display_alloc_backbuf] does: it returns, touches nothing but
    the display [disp], and there only the back buffer, its memory GC and
    the dirty rectangle. *)
Lemma alloc_backbuf_summary env disp w :
  ∃ rc w',
    ds_display_alloc_backbuf env disp w = Ret (rc, w') ∧
    (∀ p, p ≠ disp → mem_display w' p = mem_display w p) ∧
    mem_ddev w' = mem_ddev w ∧
    let d := mem_display w disp in
    let d' := mem_display w' disp in
    same_but_backbuf d d' ∧
    (double_buffered d = false → rc = EOK ∧ w' = w) ∧
    (double_buffered d = true → rc = EOK →
       is_Some (disp_backbuf d') ∧ is_Some (disp_bbgc d') ∧
       disp_dirty_rect d' = rect_zero) ∧
    (double_buffered d = true → rc ≠ EOK →
       disp_backbuf d' = None ∧ disp_bbgc d' = disp_bbgc d ∧
       disp_dirty_rect d' = disp_dirty_rect d).
Proof.
  unfold ds_display_alloc_backbuf, double_buffered.
  rewrite (bind_ret _ _ w (mem_display w disp) w) by done.
  destruct (Z.land _ _ =? 0)%Z eqn:Hf; simpl.
  { exists EOK, w. unfold same_but_backbuf. intuition (try congruence; eauto). }
  erewrite bind_ret by apply get_unbuf_gc_eq.
  destruct (gfx_bitmap_create env _ _) as [rc1 bm].
  destruct (is_error rc1) eqn:E1.
  { rewrite alloc_backbuf_error_eq. eexists _, _. split; [done|].
    apply is_error_not_EOK in E1.
    destruct (disp_backbuf (mem_display w disp)) eqn:Hb; simpl; fn_simpl; simpl;
      unfold same_but_backbuf; simpl.
    all: split; [intros p Hp; by fn_simpl|]; intuition (try congruence; eauto). }
  erewrite bind_ret by done.
  destruct (gfx_bitmap_get_alloc env bm) as [rc2 alloc].
  destruct (is_error rc2) eqn:E2.
  { rewrite alloc_backbuf_error_eq. simpl. fn_simpl. simpl. eexists _, _.
    split; [done|]. apply is_error_not_EOK in E2. simpl. fn_simpl. simpl.
    unfold same_but_backbuf; simpl.
    split; [intros p Hp; by fn_simpl|]; intuition (try congruence; eauto). }
  destruct (mem_gc_create env _ alloc) as [rc3 bbgc].
  destruct (is_error rc3) eqn:E3.
  { rewrite alloc_backbuf_error_eq. simpl. fn_simpl. simpl. eexists _, _.
    split; [done|]. apply is_error_not_EOK in E3. simpl. fn_simpl. simpl.
    unfold same_but_backbuf; simpl.
    split; [intros p Hp; by fn_simpl|]; intuition (try congruence; eauto). }
  msimpl. simpl. eexists _, _. split; [done|]. simpl. fn_simpl. simpl.
  unfold same_but_backbuf; simpl.
  split; [intros p Hp; by fn_simpl|]. intuition (try congruence; eauto).
Qed.

Lemma add_ddev_asserts env disp ddev w :
  ddev_display (mem_ddev w ddev) ≠ None ∨ lddevs (mem_ddev w ddev) ≠ None →
  ds_display_add_ddev env disp ddev w = Crash assert_failed.
Proof.
  unfold ds_display_add_ddev, assert. msimpl.
  destruct (ddev_display (mem_ddev w ddev)); simpl; [done|].
  destruct (lddevs (mem_ddev w ddev)); simpl; [done|]. intuition (try congruence; eauto).
Qed.

(** What [ds_display_add_ddev] does when its assertions hold: it
    returns, and of the displays it touches only [disp]. *)
Lemma add_ddev_summary env disp ddev w :
  ddev_display (mem_ddev w ddev) = None →
  lddevs (mem_ddev w ddev) = None →
  ∃ rc w',
    ds_display_add_ddev env disp ddev w = Ret (rc, w') ∧
    (∀ p, p ≠ disp → mem_display w' p = mem_display w p) ∧
    let dd := mem_ddev w ddev in
    let d := mem_display w disp in
    let d' := mem_display w' disp in
    disp_flags d' = disp_flags d ∧
    (double_buffered d = false →
       disp_backbuf d' = disp_backbuf d ∧ disp_bbgc d' = disp_bbgc d) ∧
    (gfx_rect_is_empty (disp_rect d) = true → rc = EOK →
       disp_rect d' = ddev_info_rect dd ∧
       disp_fbgc d' = Some (snd (ds_clonegc_create env (ddev_gc dd))) ∧
       disp_ddevs d' = disp_ddevs d ++ [ddev] ∧
       (double_buffered d = true →
          is_Some (disp_backbuf d') ∧ is_Some (disp_bbgc d') ∧
          disp_dirty_rect d' = rect_zero)) ∧
    (gfx_rect_is_empty (disp_rect d) = false → rc = EOK →
       disp_backbuf d' = disp_backbuf d ∧ disp_bbgc d' = disp_bbgc d ∧
       disp_rect d' = disp_rect d).
Proof.
  intros Hd Hl. unfold ds_display_add_ddev, assert.
  rewrite (bind_ret _ _ w (mem_ddev w ddev) w) by done.
  rewrite Hd, Hl. simpl.
  rewrite (bind_ret _ _ w () w) by done.
  rewrite (bind_ret _ _ w () w) by done.
  erewrite bind_ret by done. erewrite bind_ret by done.
  erewrite bind_ret by done. erewrite bind_ret by done.
  simpl. fn_simpl. simpl.
  destruct (gfx_rect_is_empty (disp_rect (mem_display w disp))) eqn:He.
  - erewrite bind_ret by done.
    destruct (ds_clonegc_create env _) as [rc1 fbgc] eqn:Ec.
    destruct (is_error rc1) eqn:E1.
    { eexists _, _. split; [done|]. simpl. fn_simpl. simpl.
      split; [intros p Hp; by fn_simpl|]. intuition (try congruence; eauto). }
    erewrite bind_ret by done.
    match goal with |- context [mbind _ (ds_display_alloc_backbuf env disp) ?w1] =>
      destruct (alloc_backbuf_summary env disp w1)
        as (rc2 & w2 & R2 & O2 & DD2 & S2 & N2 & Y2 & F2) end.
    erewrite bind_ret by exact R2.
    simpl in *. revert S2 N2 Y2 F2. fn_simpl. simpl.
    unfold same_but_backbuf, double_buffered. simpl.
    intros S2 N2 Y2 F2.
    destruct (is_error rc2) eqn:E2.
    + unfold add_ddev_error. msimpl. simpl. rewrite DD2. simpl. fn_simpl. simpl.
      eexists _, _. split; [done|]. simpl. fn_simpl. simpl.
      split; [intros p Hp; fn_simpl; by rewrite O2 by done; fn_simpl|].
      split; [intuition (try congruence; eauto)|]. split; [|split; [|done]].
      * intros Hn. destruct (N2 Hn) as [_ ->]. simpl. by fn_simpl.
      * intros _ ->. done.
    + apply is_error_EOK in E2 as ->.
      eexists _, _. split; [done|].
      split; [intros p Hp; by rewrite O2 by done; fn_simpl|].
      split; [intuition (try congruence; eauto)|]. split; [|split; [|done]].
      * intros Hn. destruct (N2 Hn) as [_ ->]. simpl. by fn_simpl.
      * intros _ _. destruct S2 as (_&_&_&->&_&_&_&_&->&_&->). simpl.
        unfold list_append. intuition (try congruence; eauto).
  - destruct (is_error (ds_clonegc_add_output env _ _)) eqn:E1.
    + unfold add_ddev_error. msimpl. simpl. fn_simpl. simpl.
      apply is_error_not_EOK in E1.
      eexists _, _. split; [done|]. simpl. fn_simpl. simpl.
      split; [intros p Hp; by fn_simpl|]. intuition (try congruence; eauto).
    + eexists _, _. split; [done|]. simpl. fn_simpl. simpl.
      split; [intros p Hp; by fn_simpl|]. intuition (try congruence; eauto).
Qed.

Lemma add_ddev_ret_unattached env disp ddev w rc w' :
  ds_display_add_ddev env disp ddev w = Ret (rc, w') →
  ddev_display (mem_ddev w ddev) = None ∧ lddevs (mem_ddev w ddev) = None.
Proof.
  intros H.
  destruct (ddev_display (mem_ddev w ddev)) eqn:Hd;
    [rewrite add_ddev_asserts in H by (left; congruence); done|].
  destruct (lddevs (mem_ddev w ddev)) eqn:Hl;
    [rewrite add_ddev_asserts in H by (right; congruence); done|].
  done.
Qed.

Lemma remove_ddev_displays ddev w :
  ∃ w',
    ds_display_remove_ddev ddev w = Ret ((), w') ∧
    mem_ddev w' ddev
    = mk_ddev None None (ddev_info_rect (mem_ddev w ddev)) (ddev_gc (mem_ddev w ddev)) ∧
    ∀ p, ∃ l, mem_display w' p = with_ddevs l (mem_display w p).
Proof.
  unfold ds_display_remove_ddev. msimpl.
  destruct (lddevs (mem_ddev w ddev)) as [owner|]; simpl.
  - eexists. split; [done|]. simpl. fn_simpl. split; [done|]. intros p.
    destruct (decide (owner = p)) as [->|Hne]; fn_simpl; [by eexists|].
    exists (disp_ddevs (mem_display w p)). by destruct (mem_display w p).
  - eexists. split; [done|]. simpl. fn_simpl. split; [done|]. intros p.
    exists (disp_ddevs (mem_display w p)). by destruct (mem_display w p).
Qed.



Lemma get_gc_eq env display w :
  let d := mem_display w display in
  ds_display_get_gc env display w
  = if double_buffered d then
      match disp_bbgc d with
      | Some bbgc => Ret (Some (mem_gc_get_ctx env bbgc), w)
      | None => Crash null_deref
      end
    else Ret (ds_clonegc_get_ctx env <$> disp_fbgc d, w).
Proof.
  unfold ds_display_get_gc, double_buffered. simpl.
  rewrite (bind_ret _ _ w (mem_display w display) w) by done.
  destruct (negb _).
  - unfold mem_gc_get_ctx_ptr. by destruct (disp_bbgc _).
  - apply get_unbuf_gc_eq.
Qed.


(** ** Attaching and detaching *)






(** C6 does not hold of the code.  When [ds_clonegc_create] fails for the
    first device, [ds_display_add_ddev] returns [ENOMEM] at once: the
    device stays in the device list with its back-reference set, and the
    display keeps the device's rectangle.  When the back buffer cannot be
    allocated, the [error:] label unlinks the device and clears the
    rectangle, but the back-reference and the cloning GC stay.  When
    adding a second device as an output fails, the same label clears the
    rectangle of a display that still has its first device. *)
Theorem add_ddev_error_not_undone :
  (∃ w',
     ds_display_add_ddev env_no_clonegc 1%positive 1%positive world0 = Ret (ENOMEM, w') ∧
     disp_ddevs (mem_display world0 1%positive) = [] ∧
     disp_rect (mem_display world0 1%positive) = rect_zero ∧
     disp_ddevs (mem_display w' 1%positive) = [1%positive] ∧
     ddev_display (mem_ddev w' 1%positive) = Some 1%positive ∧
     lddevs (mem_ddev w' 1%positive) = Some 1%positive ∧
     disp_rect (mem_display w' 1%positive)
     = mk_rect (mk_coord2 0 0) (mk_coord2 800 600)) ∧
  (∃ w',
     ds_display_add_ddev env_no_bitmap 1%positive 1%positive world0_double_buf
     = Ret (EOTHER 5, w') ∧
     disp_fbgc (mem_display world0_double_buf 1%positive) = None ∧
     disp_ddevs (mem_display w' 1%positive) = [] ∧
     lddevs (mem_ddev w' 1%positive) = None ∧
     ddev_display (mem_ddev w' 1%positive) = Some 1%positive ∧
     disp_fbgc (mem_display w' 1%positive) = Some 11%positive) ∧
  (∃ w1 w2,
     ds_display_add_ddev env_no_output 1%positive 1%positive world0 = Ret (EOK, w1) ∧
     disp_rect (mem_display w1 1%positive)
     = mk_rect (mk_coord2 0 0) (mk_coord2 800 600) ∧
     ds_display_add_ddev env_no_output 1%positive 2%positive w1 = Ret (EOTHER 5, w2) ∧
     disp_ddevs (mem_display w2 1%positive) = [1%positive] ∧
     disp_rect (mem_display w2 1%positive) = rect_zero ∧
     ddev_display (mem_ddev w2 2%positive) = Some 1%positive).
Proof.
  split; [|split].
  - exists (world_of (ds_display_add_ddev env_no_clonegc 1%positive 1%positive world0)).
    split; [vm_compute; reflexivity|]. vm_compute. repeat split.
  - exists (world_of (ds_display_add_ddev env_no_bitmap 1%positive 1%positive
                        world0_double_buf)).
    split; [vm_compute; reflexivity|]. vm_compute. repeat split.
  - exists (world_of (ds_display_add_ddev env_no_output 1%positive 1%positive world0)).
    exists (world_of (ds_display_add_ddev env_no_output 1%positive 2%positive
                        (world_of (ds_display_add_ddev env_no_output 1%positive
                                     1%positive world0)))).
    split; [vm_compute; reflexivity|]. split; [vm_compute; reflexivity|].
    split; [vm_compute; reflexivity|]. vm_compute. repeat split.
Qed.

(** ** The dirty rectangle *)

Lemma inside_iff p r :
  gfx_pix_inside_rect p r = true ↔
  (x (p0 r) ≤ x p ∧ x p < x (p1 r) ∧ y (p0 r) ≤ y p ∧ y p < y (p1 r))%Z.
Proof.
  unfold gfx_pix_inside_rect. rewrite !andb_true_iff, !bool_decide_eq_true. tauto.
Qed.

Lemma is_empty_iff r :
  gfx_rect_is_empty r = true ↔ (x (p0 r) = x (p1 r) ∨ y (p0 r) = y (p1 r)).
Proof.
  unfold gfx_rect_is_empty. rewrite orb_true_iff, !bool_decide_eq_true. tauto.
Qed.

Lemma is_empty_false_iff r :
  gfx_rect_is_empty r = false ↔ (x (p0 r) ≠ x (p1 r) ∧ y (p0 r) ≠ y (p1 r)).
Proof.
  unfold gfx_rect_is_empty. rewrite orb_false_iff, !bool_decide_eq_false. tauto.
Qed.

Lemma empty_within a b : gfx_rect_is_empty a = true → rect_within a b.
Proof.
  intros He p Hp. apply is_empty_iff in He. apply inside_iff in Hp. lia.
Qed.

Lemma rect_within_refl a : rect_within a a.
Proof. by intros p. Qed.

Lemma rect_within_trans a b c : rect_within a b → rect_within b c → rect_within a c.
Proof. intros H1 H2 p Hp. auto. Qed.

Lemma envelope_sorted a b :
  rect_sorted a → rect_sorted b → rect_sorted (gfx_rect_envelope a b).
Proof.
  unfold gfx_rect_envelope, rect_sorted. intros Ha Hb.
  destruct (gfx_rect_is_empty a); [done|].
  destruct (gfx_rect_is_empty b); [done|]. simpl. lia.
Qed.

Lemma envelope_covers_l a b : rect_within a (gfx_rect_envelope a b).
Proof.
  unfold gfx_rect_envelope.
  destruct (gfx_rect_is_empty a) eqn:Ea; [by apply empty_within|].
  destruct (gfx_rect_is_empty b) eqn:Eb; [apply rect_within_refl|].
  intros p Hp. apply inside_iff in Hp. apply inside_iff. simpl. lia.
Qed.

Lemma envelope_covers_r a b : rect_within b (gfx_rect_envelope a b).
Proof.
  unfold gfx_rect_envelope.
  destruct (gfx_rect_is_empty a) eqn:Ea; [apply rect_within_refl|].
  destruct (gfx_rect_is_empty b) eqn:Eb; [by apply empty_within|].
  intros p Hp. apply inside_iff in Hp. apply inside_iff. simpl. lia.
Qed.

(** A sorted rectangle that is not empty contains its corner pixels. *)
Lemma within_corners a e :
  rect_sorted a → gfx_rect_is_empty a = false → rect_within a e →
  (x (p0 e) ≤ x (p0 a) ∧ x (p1 a) ≤ x (p1 e) ∧
   y (p0 e) ≤ y (p0 a) ∧ y (p1 a) ≤ y (p1 e))%Z.
Proof.
  intros [Hx Hy] He Hw. apply is_empty_false_iff in He as [Nx Ny].
  pose proof (Hw (p0 a)) as H0.
  pose proof (Hw (mk_coord2 (x (p1 a) - 1) (y (p1 a) - 1))) as H1.
  rewrite !inside_iff in H0, H1. simpl in *. lia.
Qed.

Lemma envelope_least a b e :
  rect_sorted a → rect_sorted b →
  rect_within a e → rect_within b e → rect_within (gfx_rect_envelope a b) e.
Proof.
  intros Sa Sb Ha Hb. unfold gfx_rect_envelope.
  destruct (gfx_rect_is_empty a) eqn:Ea; [done|].
  destruct (gfx_rect_is_empty b) eqn:Eb; [done|].
  pose proof (within_corners a e Sa Ea Ha).
  pose proof (within_corners b e Sb Eb Hb).
  intros p Hp. apply inside_iff in Hp. apply inside_iff. simpl in *. lia.
Qed.

Lemma fold_envelope_spec rs a :
  rect_sorted a → Forall rect_sorted rs →
  let e := fold_left gfx_rect_envelope rs a in
  rect_sorted e ∧ rect_within a e ∧
  (∀ r, r ∈ rs → rect_within r e) ∧
  (∀ e', rect_within a e' → (∀ r, r ∈ rs → rect_within r e') → rect_within e e').
Proof.
  intros Sa Hrs. revert a Sa.
  induction Hrs as [|r rs Sr _ IH]; intros a Sa; simpl.
  - split; [done|]. split; [apply rect_within_refl|]. split; [|by auto].
    intros r Hr. by apply elem_of_nil in Hr.
  - destruct (IH (gfx_rect_envelope a r)) as (Se & Wa & Wr & Le);
      [by apply envelope_sorted|].
    split; [done|]. split; [|split].
    + eapply rect_within_trans; [apply envelope_covers_l|exact Wa].
    + intros r' Hr'. apply elem_of_cons in Hr' as [->|Hr']; [|by auto].
      eapply rect_within_trans; [apply envelope_covers_r|exact Wa].
    + intros e' Ha' Hr'. apply Le.
      * apply envelope_least; try done. apply Hr'. by left.
      * intros r' Hin. apply Hr'. by right.
Qed.

Lemma invalidate_all_eq disp rs w :
  invalidate_all disp rs w = Ret ((), invalidated disp rs w).
Proof.
  revert w. induction rs as [|r rs IH]; intros w; simpl; [done|].
  unfold ds_display_invalidate_cb. msimpl. by rewrite IH.
Qed.

(** The invalidate callbacks change the dirty rectangle of [disp] and
    nothing else. *)
Lemma invalidated_fields disp rs w :
  let w' := invalidated disp rs w in
  mem_display w' disp
  = with_dirty_rect
      (fold_left gfx_rect_envelope rs (disp_dirty_rect (mem_display w disp)))
      (mem_display w' disp) ∧
  same_but_backbuf (mem_display w disp) (mem_display w' disp) ∧
  disp_backbuf (mem_display w' disp) = disp_backbuf (mem_display w disp) ∧
  disp_bbgc (mem_display w' disp) = disp_bbgc (mem_display w disp) ∧
  (∀ p, p ≠ disp → mem_display w' p = mem_display w p) ∧
  calls w' = calls w ∧ mem_window w' = mem_window w ∧ mem_ddev w' = mem_ddev w.
Proof.
  revert w. induction rs as [|r rs IH]; intros w; simpl.
  - unfold same_but_backbuf. split; [by destruct (mem_display w disp)|done].
  - destruct (IH (display_set disp
                    (with_dirty_rect
                       (gfx_rect_envelope (disp_dirty_rect (mem_display w disp)) r)
                       (mem_display w disp)) w))
      as (E & S & B & G & O & C & W & D).
    simpl in *. revert E S B G. fn_simpl. simpl. intros E S B G.
    split; [done|]. split; [done|]. split; [done|]. split; [done|].
    split; [|done]. intros p Hp. rewrite O by done. by fn_simpl.
Qed.

Lemma invalidated_dirty_rect disp rs w :
  disp_dirty_rect (mem_display (invalidated disp rs w) disp)
  = fold_left gfx_rect_envelope rs (disp_dirty_rect (mem_display w disp)).
Proof.
  destruct (invalidated_fields disp rs w) as [E _]. simpl in E. by rewrite E.
Qed.

Lemma update_eq env disp w :
  let d := mem_display w disp in
  ds_display_update env disp w
  = match disp_backbuf d with
    | None => Ret (EOK, w)
    | Some bm =>
        let w1 := logged [call_bitmap_render bm (disp_dirty_rect d)] w in
        if is_error (gfx_bitmap_render env bm (disp_dirty_rect d))
        then Ret (gfx_bitmap_render env bm (disp_dirty_rect d), w1)
        else Ret (EOK, display_set disp (with_dirty_rect rect_zero d) w1)
    end.
Proof.
  unfold ds_display_update. msimpl. simpl.
  destruct (disp_backbuf _); [|done]. by destruct (is_error _).
Qed.

(** C3. From the empty dirty rectangle that a successful
    [ds_display_alloc_backbuf] leaves on a double-buffered display, the
    invalidate callbacks for r1..rN leave as dirty rectangle the envelope
    of r1..rN, which covers each of them and is covered by every
    rectangle that covers each of them; and [ds_display_update], with the
    back buffer present and the render succeeding, renders that rectangle
    and resets the dirty rectangle to p0 = p1 = (0,0). *)
Theorem dirty_rect_envelope (env : ds_env) (disp : ptr) (w w0 : ds_world)
    (rs : list gfx_rect_t) :
  double_buffered (mem_display w disp) = true →
  ds_display_alloc_backbuf env disp w = Ret (EOK, w0) →
  Forall rect_sorted rs →
  disp_dirty_rect (mem_display w0 disp) = rect_zero ∧
  ∃ w1 bm,
    invalidate_all disp rs w0 = Ret ((), w1) ∧
    disp_dirty_rect (mem_display w1 disp) = fold_left gfx_rect_envelope rs rect_zero ∧
    min_envelope rs (disp_dirty_rect (mem_display w1 disp)) ∧
    disp_backbuf (mem_display w1 disp) = Some bm ∧
    (gfx_bitmap_render env bm (disp_dirty_rect (mem_display w1 disp)) = EOK →
     ∃ w2,
       ds_display_update env disp w1 = Ret (EOK, w2) ∧
       calls w2
       = calls w1 ++ [call_bitmap_render bm (disp_dirty_rect (mem_display w1 disp))] ∧
       disp_dirty_rect (mem_display w2 disp) = rect_zero).
Proof.
  intros Hdb Halloc Hrs.
  destruct (alloc_backbuf_summary env disp w) as (rc & w' & R & _ & _ & _ & _ & Y & _).
  rewrite R in Halloc. injection Halloc as -> ->.
  destruct (Y Hdb eq_refl) as ([bm Hbm] & _ & Hz). simpl in *.
  split; [done|].
  exists (invalidated disp rs w0), bm.
  destruct (invalidated_fields disp rs w0) as (_ & _ & B & _).
  pose proof (invalidated_dirty_rect disp rs w0) as D. simpl in *.
  rewrite Hz in D. rewrite Hbm in B.
  split; [apply invalidate_all_eq|]. split; [done|]. split; [|split; [done|]].
  - rewrite D.
    destruct (fold_envelope_spec rs rect_zero) as (_ & _ & Hc & Hl); [by split|done|].
    split; [done|]. intros e' He'. apply Hl; [by apply empty_within|done].
  - intros Hr. rewrite update_eq. simpl. rewrite B, Hr. simpl.
    eexists. split; [done|]. simpl. by fn_simpl.
Qed.

(** ** Painting *)

Section paint.

Context (env : ds_env) (disp : ptr).

Lemma draw_eq c w :
  draw disp c (answer env c) w
  = Ret (fst (answer env c), invalidated disp (snd (answer env c)) (logged [c] w)).
Proof.
  unfold draw. erewrite bind_ret by done.
  erewrite bind_ret by apply invalidate_all_eq. done.
Qed.

Lemma run_draws_ext cs k k' w :
  (∀ cs', k (drawn_all env disp cs' w) = k' (drawn_all env disp cs' w)) →
  run_draws env disp cs k w = run_draws env disp cs k' w.
Proof.
  revert w. induction cs as [|c cs IH]; intros w H; simpl.
  - apply (H []).
  - rewrite !(bind_ret _ _ _ _ _ (draw_eq c w)).
    destruct (is_error _); [done|]. apply IH. intros cs'. apply (H (c :: cs')).
Qed.

Lemma run_draws_app cs1 cs2 k w :
  run_draws env disp (cs1 ++ cs2) k w
  = run_draws env disp cs1 (run_draws env disp cs2 k) w.
Proof.
  revert w. induction cs1 as [|c cs1 IH]; intros w; simpl; [done|].
  rewrite !(bind_ret _ _ _ _ _ (draw_eq c w)).
  by destruct (is_error _).
Qed.

Lemma paint_windows_eq rect wnds k w :
  paint_windows env disp rect wnds k w
  = run_draws env disp (map (λ wnd, call_window_paint wnd rect) wnds) k w.
Proof.
  revert w. induction wnds as [|wnd wnds IH]; intros w; simpl; [done|].
  change (ds_window_paint env wnd rect) with (answer env (call_window_paint wnd rect)).
  rewrite !(bind_ret _ _ _ _ _ (draw_eq _ w)).
  by destruct (is_error _).
Qed.

Lemma paint_previews_eq rect wnds k w :
  paint_previews env disp rect wnds k w
  = run_draws env disp (map (λ wnd, call_window_paint_preview wnd rect) wnds) k w.
Proof.
  revert w. induction wnds as [|wnd wnds IH]; intros w; simpl; [done|].
  change (ds_window_paint_preview env wnd rect)
    with (answer env (call_window_paint_preview wnd rect)).
  rewrite !(bind_ret _ _ _ _ _ (draw_eq _ w)).
  by destruct (is_error _).
Qed.

Lemma paint_pointers_eq rect seats k w :
  paint_pointers env disp rect seats k w
  = run_draws env disp (map (λ seat, call_seat_paint_pointer seat rect) seats) k w.
Proof.
  revert w. induction seats as [|seat seats IH]; intros w; simpl; [done|].
  change (ds_seat_paint_pointer env seat rect)
    with (answer env (call_seat_paint_pointer seat rect)).
  rewrite !(bind_ret _ _ _ _ _ (draw_eq _ w)).
  by destruct (is_error _).
Qed.

Lemma drawn_all_app cs1 cs2 w :
  drawn_all env disp (cs1 ++ cs2) w
  = drawn_all env disp cs2 (drawn_all env disp cs1 w).
Proof. revert w. induction cs1 as [|c cs1 IH]; intros w; simpl; [done|]. apply IH. Qed.

(** Drawing changes the dirty rectangle of [disp] and the call log, and
    nothing else. *)
Lemma drawn_all_fields cs w :
  let w' := drawn_all env disp cs w in
  same_but_backbuf (mem_display w disp) (mem_display w' disp) ∧
  disp_backbuf (mem_display w' disp) = disp_backbuf (mem_display w disp) ∧
  disp_bbgc (mem_display w' disp) = disp_bbgc (mem_display w disp) ∧
  disp_dirty_rect (mem_display w' disp)
  = fold_left gfx_rect_envelope (invalidations env cs)
      (disp_dirty_rect (mem_display w disp)) ∧
  calls w' = calls w ++ cs.
Proof.
  revert w. induction cs as [|c cs IH]; intros w; simpl.
  - unfold same_but_backbuf. by rewrite app_nil_r.
  - destruct (IH (invalidated disp (snd (answer env c)) (logged [c] w)))
      as (S & B & G & D & C).
    destruct (invalidated_fields disp (snd (answer env c)) (logged [c] w))
      as (_ & S1 & B1 & G1 & _ & C1 & _).
    pose proof (invalidated_dirty_rect disp (snd (answer env c)) (logged [c] w)) as D1.
    simpl in *. unfold invalidations. simpl. rewrite fold_left_app.
    rewrite D, D1, B, B1, G, G1, C, C1. simpl. rewrite <- app_assoc.
    repeat split; try done.
    all: unfold same_but_backbuf in *; intuition congruence.
Qed.

(** A run of drawing calls either makes them all and goes on, or stops
    at the first call that fails and returns its code. *)
Lemma run_draws_cases cs k w :
  (Forall (λ c, fst (answer env c) = EOK) cs ∧
   run_draws env disp cs k w = k (drawn_all env disp cs w)) ∨
  (∃ done failing rest,
     cs = done ++ failing :: rest ∧
     Forall (λ c, fst (answer env c) = EOK) done ∧
     fst (answer env failing) ≠ EOK ∧
     run_draws env disp cs k w
     = Ret (fst (answer env failing), drawn_all env disp (done ++ [failing]) w)).
Proof.
  revert w. induction cs as [|c cs IH]; intros w; simpl.
  - left. by split.
  - rewrite !(bind_ret _ _ _ _ _ (draw_eq c w)).
    destruct (is_error (fst (answer env c))) eqn:E.
    + right. exists [], c, cs. apply is_error_not_EOK in E. by repeat split.
    + apply is_error_EOK in E.
      destruct (IH (invalidated disp (snd (answer env c)) (logged [c] w)))
        as [[Hall ->]|(done & failing & rest & -> & Hall & Hf & ->)].
      * left. split; [by constructor|done].
      * right. exists (c :: done), failing, rest. repeat split; try done.
        by constructor.
Qed.

Lemma run_draws_bind cs (k : M errno_t) w :
  (run_draws env disp cs (mret EOK)
   ≫= λ rc, if is_error rc then mret rc else k) w
  = run_draws env disp cs k w.
Proof.
  revert w. induction cs as [|c cs IH]; intros w; simpl; [done|].
  unfold mbind at 1. unfold M_bind at 1.
  rewrite !(bind_ret _ _ _ _ _ (draw_eq c w)).
  destruct (is_error (fst (answer env c))) eqn:E.
  - unfold mret, M_ret. by rewrite E.
  - apply IH.
Qed.

(** The background calls of [ds_display_paint_bg]. *)
Lemma paint_bg_eq rect w :
  let d := mem_display w disp in
  let crect :=
    match rect with
    | Some r => gfx_rect_clip env (disp_rect d) r
    | None => disp_rect d
    end in
  ds_display_paint_bg env disp rect w
  = if double_buffered d && bool_decide (disp_bbgc d = None) then Crash null_deref
    else
      run_draws env disp
        match gc_of env d with
        | Some gc => [call_set_color gc (disp_bg_color d); call_fill_rect gc crect]
        | None => []
        end
        (mret EOK) w.
Proof.
  simpl. unfold ds_display_paint_bg, gc_of.
  rewrite (bind_ret _ _ w (mem_display w disp) w) by done.
  unfold mbind at 1. unfold M_bind at 1. rewrite get_gc_eq. simpl.
  destruct (double_buffered (mem_display w disp)); simpl.
  - destruct (disp_bbgc (mem_display w disp)) as [bbgc|]; simpl; [|done].
    change (gfx_set_color env (mem_gc_get_ctx env bbgc) (disp_bg_color (mem_display w disp)))
      with (answer env (call_set_color (mem_gc_get_ctx env bbgc)
                          (disp_bg_color (mem_display w disp)))).
    rewrite !(bind_ret _ _ _ _ _ (draw_eq _ w)).
    destruct (is_error _); [done|].
    match goal with |- draw _ (call_fill_rect ?g ?r) _ _ = _ =>
      change (gfx_fill_rect env g r) with (answer env (call_fill_rect g r)) end.
    rewrite !(bind_ret _ _ _ _ _ (draw_eq _ _)).
    rewrite draw_eq. destruct (is_error _) eqn:E; [done|].
    apply is_error_EOK in E. by rewrite E.
  - destruct (disp_fbgc (mem_display w disp)) as [fbgc|]; simpl; [|done].
    change (gfx_set_color env (ds_clonegc_get_ctx env fbgc)
              (disp_bg_color (mem_display w disp)))
      with (answer env (call_set_color (ds_clonegc_get_ctx env fbgc)
                          (disp_bg_color (mem_display w disp)))).
    rewrite !(bind_ret _ _ _ _ _ (draw_eq _ w)).
    destruct (is_error _); [done|].
    match goal with |- draw _ (call_fill_rect ?g ?r) _ _ = _ =>
      change (gfx_fill_rect env g r) with (answer env (call_fill_rect g r)) end.
    rewrite !(bind_ret _ _ _ _ _ (draw_eq _ _)).
    rewrite draw_eq. destruct (is_error _) eqn:E; [done|].
    apply is_error_EOK in E. by rewrite E.
Qed.

Lemma drawn_all_lists cs w :
  disp_windows (mem_display (drawn_all env disp cs w) disp)
  = disp_windows (mem_display w disp) ∧
  disp_seats (mem_display (drawn_all env disp cs w) disp)
  = disp_seats (mem_display w disp).
Proof.
  destruct (drawn_all_fields cs w) as (S & _). unfold same_but_backbuf in S.
  simpl in S. intuition.
Qed.

Lemma bind_ext_l {A B} (m m' : M A) (f : A → M B) w :
  m w = m' w → (m ≫= f) w = (m' ≫= f) w.
Proof. unfold mbind, M_bind. by intros ->. Qed.

(** [ds_display_paint], when [ds_display_get_gc] returns, is the run of
    [paint_steps] followed by [ds_display_update]. *)
Lemma paint_eq rect w :
  double_buffered (mem_display w disp) && bool_decide (disp_bbgc (mem_display w disp) = None)
  = false →
  ds_display_paint env disp rect w
  = run_draws env disp (paint_steps env disp rect w) (ds_display_update env disp) w.
Proof.
  intros Hgc. unfold ds_display_paint, paint_steps.
  pose proof (paint_bg_eq rect w) as Hbg. simpl in Hbg. rewrite Hgc in Hbg.
  erewrite bind_ext_l by exact Hbg. clear Hbg.
  rewrite run_draws_bind. rewrite run_draws_app.
  apply run_draws_ext. intros cs1.
  destruct (drawn_all_lists cs1 w) as [W1 S1].
  erewrite bind_ret by done. rewrite paint_windows_eq, W1.
  rewrite run_draws_app. apply run_draws_ext. intros cs2.
  rewrite <- drawn_all_app.
  destruct (drawn_all_lists (cs1 ++ cs2) w) as [W2 S2].
  erewrite bind_ret by done. rewrite paint_previews_eq, W2.
  rewrite run_draws_app. apply run_draws_ext. intros cs3.
  rewrite <- drawn_all_app.
  destruct (drawn_all_lists ((cs1 ++ cs2) ++ cs3) w) as [W3 S3].
  erewrite bind_ret by done. rewrite paint_pointers_eq, S3. done.
Qed.

End paint.

Lemma paint_crash env disp rect w :
  double_buffered (mem_display w disp) && bool_decide (disp_bbgc (mem_display w disp) = None)
  = true →
  ds_display_paint env disp rect w = Crash null_deref.
Proof.
  intros Hgc. unfold ds_display_paint.
  pose proof (paint_bg_eq env disp rect w) as Hbg. simpl in Hbg. rewrite Hgc in Hbg.
  unfold mbind, M_bind. by rewrite Hbg.
Qed.



(** C10, as the code has it.  On a display without the double-buffer
    flag and without cloning GC, [ds_display_paint_bg] returns [EOK]
    without any call, whatever rectangle it is given, NULL included. *)
Theorem paint_bg_no_fbgc_unbuffered (env : ds_env) (disp : ptr)
    (rect : option gfx_rect_t) (w : ds_world) :
  double_buffered (mem_display w disp) = false →
  disp_fbgc (mem_display w disp) = None →
  ds_display_paint_bg env disp rect w = Ret (EOK, w).
Proof.
  intros Hdb Hfb. pose proof (paint_bg_eq env disp rect w) as Hbg. simpl in Hbg.
  rewrite Hbg. unfold gc_of. by rewrite Hdb, Hfb.
Qed.

(** C10, as stated, fails on double-buffered displays, where the context
    comes from the memory GC and the cloning GC is not consulted.  A
    display created double-buffered, before any device is attached, has
    neither: [ds_display_paint_bg] reads through the NULL memory GC.  And
    with a memory GC but no cloning GC it sets the colour and fills. *)
Lemma paint_bg_no_fbgc_double_buffered :
  (disp_fbgc (mem_display world0_double_buf 1%positive) = None ∧
   mem_display world0_double_buf 1%positive
   = ds_display_created df_disp_double_buf 1%positive [] ∧
   ds_display_paint_bg env_ok 1%positive None world0_double_buf = Crash null_deref) ∧
  (disp_fbgc (mem_display world0_bbgc_only 1%positive) = None ∧
   ∃ w',
     ds_display_paint_bg env_ok 1%positive None world0_bbgc_only = Ret (EOK, w') ∧
     calls w' = [call_set_color 16%positive 1%positive;
                 call_fill_rect 16%positive rect_zero]).
Proof.
  split.
  - split; [done|]. split; [done|]. vm_compute. done.
  - split; [done|].
    exists (world_of (ds_display_paint_bg env_ok 1%positive None world0_bbgc_only)).
    split; vm_compute; reflexivity.
Qed.

(** ** The theorems at concrete stores *)

(** C1 on a run of five window operations. *)
Lemma window_list_topmost_first_witness :
  run_window_ops example_window_ops world0 = Ret ((), world_after_window_ops) ∧
  disp_windows (mem_display world_after_window_ops 1%positive)
  = [1%positive; 3%positive] ∧
  topmost_first (mem_window world_after_window_ops)
    (disp_windows (mem_display world_after_window_ops 1%positive)).
Proof.
  split; [vm_compute; reflexivity|]. split; [vm_compute; reflexivity|].
  apply (proj2 window_list_topmost_first example_window_ops world0
           world_after_window_ops 1%positive).
  - apply (proj1 window_list_topmost_first (mem_window world0) df_none 1%positive []).
  - vm_compute. reflexivity.
Defined.

(** C2: windows 1 (A), 2 (B, topmost) and 3 (C) added to display 1. *)
Lemma enlist_window_policy_witness :
  ∃ w1 w2 w3,
    ds_display_add_window 1%positive 1%positive world0 = Ret ((), w1) ∧
    ds_display_add_window 1%positive 2%positive w1 = Ret ((), w2) ∧
    disp_windows (mem_display w2 1%positive) = [2%positive; 1%positive] ∧
    ds_display_add_window 1%positive 3%positive w2 = Ret ((), w3) ∧
    disp_windows (mem_display w3 1%positive) = [2%positive; 3%positive; 1%positive].
Proof.
  apply (proj2 enlist_window_policy 1%positive 1%positive 2%positive 3%positive world0);
    try done.
Defined.


(** C3 on two overlapping rectangles. *)
Lemma dirty_rect_envelope_witness :
  ∃ w1,
    invalidate_all 1%positive example_rects world_backbuf = Ret ((), w1) ∧
    disp_dirty_rect (mem_display w1 1%positive)
    = mk_rect (mk_coord2 0 0) (mk_coord2 200 120) ∧
    min_envelope example_rects (disp_dirty_rect (mem_display w1 1%positive)).
Proof.
  destruct (dirty_rect_envelope env_ok 1%positive world0_double_buf world_backbuf
              example_rects)
    as (_ & w1 & bm & R & D & ME & _).
  - vm_compute. reflexivity.
  - vm_compute. reflexivity.
  - repeat constructor; vm_compute; discriminate.
  - exists w1. split; [exact R|]. split; [rewrite D; vm_compute; reflexivity|exact ME].
Defined.



(** C10 on a display created without flags, before any device. *)
Lemma paint_bg_no_fbgc_unbuffered_witness :
  ds_display_paint_bg env_ok 1%positive None world0 = Ret (EOK, world0) ∧
  ds_display_paint_bg env_ok 1%positive
    (Some (mk_rect (mk_coord2 0 0) (mk_coord2 10 10))) world0
  = Ret (EOK, world0).
Proof.
  split; apply paint_bg_no_fbgc_unbuffered; reflexivity.
Defined.

(** * Further properties of the display *)

(** ** Window lists as intrusive lists *)

Lemma before_first_non_topmost_perm wnds wnd l :
  before_first_non_topmost wnds wnd l ≡ₚ wnd :: l.
Proof.
  induction l as [|a l IH]; simpl; [done|].
  destruct (is_topmost (wnds a)); [|done].
  rewrite IH. apply Permutation_swap.
Qed.

Lemma enlist_list_perm wnds wnd l : enlist_list wnds wnd l ≡ₚ wnd :: l.
Proof.
  destruct (is_topmost (wnds wnd)) eqn:E.
  - by rewrite enlist_list_top.
  - rewrite enlist_list_ntop by done. apply before_first_non_topmost_perm.
Qed.

Lemma list_remove_not_in (m : ptr) l : m ∉ l → list_remove m l = l.
Proof.
  unfold list_remove. induction l as [|a l IH]; [done|].
  intros H. apply not_elem_of_cons in H as [? ?].
  rewrite filter_cons, decide_True by done. by rewrite IH.
Qed.

Lemma elem_of_list_remove (m p : ptr) l : p ∈ list_remove m l ↔ p ≠ m ∧ p ∈ l.
Proof. unfold list_remove. by rewrite list_elem_of_filter. Qed.

Lemma NoDup_list_remove (m : ptr) l : NoDup l → NoDup (list_remove m l).
Proof. apply NoDup_filter. Qed.

Lemma windows_wf_logged cs w : windows_wf w → windows_wf (logged cs w).
Proof. done. Qed.

Lemma windows_wf_window_set wnd v w :
  windows_wf w →
  ldwindows v = ldwindows (mem_window w wnd) →
  (∀ d, ldwindows v = Some d → wnd_display v = Some d) →
  windows_wf (window_set wnd v w).
Proof.
  intros (N & L & B) Hl Hb. split; [done|]. split; simpl.
  - intros d p. rewrite L. destruct (decide (wnd = p)) as [->|Hne].
    + by rewrite fn_lookup_insert, Hl.
    + by rewrite fn_lookup_insert_ne.
  - intros d p. destruct (decide (wnd = p)) as [->|Hne].
    + rewrite fn_lookup_insert. apply Hb.
    + rewrite fn_lookup_insert_ne by done. apply B.
Qed.

Lemma windows_wf_unlinked wnd w : windows_wf w → windows_wf (unlinked wnd w).
Proof.
  intros (N & L & B). unfold unlinked, windows_wf.
  destruct (ldwindows (mem_window w wnd)) as [owner|] eqn:Hl; simpl.
  - split; [|split].
    + intros d. destruct (decide (owner = d)) as [->|Hne].
      * rewrite fn_lookup_insert. simpl. by apply NoDup_list_remove.
      * by rewrite fn_lookup_insert_ne.
    + intros d p. destruct (decide (wnd = p)) as [->|Hp].
      * rewrite fn_lookup_insert. simpl. split; [|done].
        destruct (decide (owner = d)) as [->|Hne].
        -- rewrite fn_lookup_insert. simpl. rewrite elem_of_list_remove. by intros [? _].
        -- rewrite fn_lookup_insert_ne by done. rewrite L. congruence.
      * rewrite (fn_lookup_insert_ne _ wnd p) by done. rewrite <- L.
        destruct (decide (owner = d)) as [->|Hne].
        -- rewrite fn_lookup_insert. simpl. rewrite elem_of_list_remove. intuition congruence.
        -- by rewrite fn_lookup_insert_ne.
    + intros d p. destruct (decide (wnd = p)) as [->|Hp].
      * by rewrite fn_lookup_insert.
      * rewrite fn_lookup_insert_ne by done. apply B.
  - split; [done|]. split.
    + intros d p. rewrite L. destruct (decide (wnd = p)) as [->|Hp].
      * rewrite fn_lookup_insert. simpl. by rewrite Hl.
      * by rewrite fn_lookup_insert_ne.
    + intros d p. destruct (decide (wnd = p)) as [->|Hp].
      * by rewrite fn_lookup_insert.
      * rewrite fn_lookup_insert_ne by done. apply B.
Qed.

Lemma windows_wf_enlisted display wnd w :
  windows_wf w →
  ldwindows (mem_window w wnd) = None →
  wnd_display (mem_window w wnd) = Some display →
  windows_wf (enlisted display wnd w).
Proof.
  intros (N & L & B) Hl Hd.
  assert (∀ d, wnd ∉ disp_windows (mem_display w d)) as Hout.
  { intros d. rewrite L. congruence. }
  split; [|split]; simpl.
  - intros d. destruct (decide (display = d)) as [->|Hne].
    + rewrite fn_lookup_insert. simpl. rewrite enlist_list_perm.
      apply NoDup_cons. by split.
    + by rewrite fn_lookup_insert_ne.
  - intros d p. destruct (decide (display = d)) as [->|Hne].
    + rewrite fn_lookup_insert. simpl. rewrite enlist_list_perm, elem_of_cons.
      destruct (decide (wnd = p)) as [->|Hp].
      * rewrite fn_lookup_insert. simpl. intuition congruence.
      * rewrite fn_lookup_insert_ne by done. rewrite L. intuition congruence.
    + rewrite fn_lookup_insert_ne by done.
      destruct (decide (wnd = p)) as [->|Hp].
      * rewrite fn_lookup_insert. simpl. split; [by intros ?%Hout|congruence].
      * rewrite fn_lookup_insert_ne by done. apply L.
  - intros d p. destruct (decide (wnd = p)) as [->|Hp].
    + rewrite fn_lookup_insert. simpl. congruence.
    + rewrite fn_lookup_insert_ne by done. apply B.
Qed.

Lemma run_window_op_wf o w w' :
  windows_wf w → run_window_op o w = Ret ((), w') → windows_wf w'.
Proof.
  intros Hwf. destruct o as [display wnd|wnd|wnd]; simpl; intros H.
  - destruct (add_window_inv _ _ _ _ H) as [Hd Hl].
    rewrite add_window_eq in H by done. injection H as <-.
    apply windows_wf_logged, windows_wf_enlisted; simpl;
      rewrite ?fn_lookup_insert; try done.
    apply windows_wf_window_set; simpl; rewrite ?Hl; done.
  - destruct (remove_window_inv _ _ _ H) as [disp Hd].
    rewrite (remove_window_eq _ _ disp) in H by done. injection H as <-.
    apply windows_wf_logged, windows_wf_window_set; simpl;
      rewrite ?fn_lookup_insert; try done.
    by apply windows_wf_unlinked.
  - destruct (window_to_top_inv _ _ _ H) as (display & owner & Hd & Hl).
    rewrite (window_to_top_eq _ _ display owner) in H by done. injection H as <-.
    apply windows_wf_enlisted; simpl; rewrite ?fn_lookup_insert; try done.
    by apply windows_wf_unlinked.
Qed.

Lemma run_window_ops_wf ops w w' :
  windows_wf w → run_window_ops ops w = Ret ((), w') → windows_wf w'.
Proof.
  revert w. induction ops as [|o ops IH]; intros w Hwf; simpl.
  - by intros [= <-].
  - intros H. apply bind_ret_inv in H as ([] & w1 & H1 & H2).
    apply (IH w1); [|done]. by eapply run_window_op_wf.
Qed.

(** X1. The window lists stay a faithful picture of the intrusive lists
    over [ds_display_add_window], [ds_display_remove_window] and
    [ds_display_window_to_top]: after any run that returns, no window is
    twice in a list, a window is in a display's list exactly when its
    link is in that list, and such a window has that display as its
    back-reference. *)
Theorem window_ops_keep_lists_wf (ops : list window_op) (w w' : ds_world) :
  windows_wf w → run_window_ops ops w = Ret ((), w') → windows_wf w'.
Proof. apply run_window_ops_wf. Qed.

Lemma world0_windows_wf : windows_wf world0.
Proof.
  split; [|split]; simpl.
  - intros d. apply NoDup_nil_2.
  - intros d p. split; [by intros ?%elem_of_nil|done].
  - done.
Qed.

(** X1 on a run of five window operations. *)
Lemma window_ops_keep_lists_wf_witness : windows_wf world_after_window_ops.
Proof.
  apply (window_ops_keep_lists_wf example_window_ops world0 world_after_window_ops).
  - apply world0_windows_wf.
  - vm_compute. reflexivity.
Defined.

Lemma remove_enlist wnds wnd k :
  wnd ∉ k → list_remove wnd (enlist_list wnds wnd k) = k.
Proof.
  intros Hk. pose proof (remove_enlist_idem wnds wnd k) as H.
  by rewrite (list_remove_not_in wnd k) in H.
Qed.

Lemma with_windows_same d : with_windows (disp_windows d) d = d.
Proof. by destruct d. Qed.

(** X2. In a store whose window lists are well formed,
    [ds_display_add_window] puts the window into the list of its display
    exactly once: it was in no list before, the new list is the old one
    with the window inserted somewhere, the windows that were there keep
    their order, and the lists of the other displays are untouched. *)
Theorem add_window_enlists_once (display wnd : ptr) (w w' : ds_world) :
  windows_wf w →
  ds_display_add_window display wnd w = Ret ((), w') →
  (∀ d, wnd ∉ disp_windows (mem_display w d)) ∧
  disp_windows (mem_display w' display) ≡ₚ wnd :: disp_windows (mem_display w display) ∧
  NoDup (disp_windows (mem_display w' display)) ∧
  list_remove wnd (disp_windows (mem_display w' display))
  = disp_windows (mem_display w display) ∧
  (∀ d, d ≠ display → mem_display w' d = mem_display w d) ∧
  mem_window w' wnd
  = mk_window (Some display) (Some display) (wnd_id (mem_window w wnd))
      (wnd_flags (mem_window w wnd)).
Proof.
  intros (N & L & B) H.
  destruct (add_window_inv _ _ _ _ H) as [Hd Hl].
  rewrite add_window_eq in H by done. injection H as <-. simpl.
  assert (∀ d, wnd ∉ disp_windows (mem_display w d)) as Hout.
  { intros d. rewrite L. congruence. }
  rewrite !fn_lookup_insert. simpl.
  rewrite (enlist_list_ext (mem_window w)) by (intros p; by apply flags_insert_same).
  split; [done|]. split; [apply enlist_list_perm|]. split; [|split; [|split]].
  - rewrite enlist_list_perm. apply NoDup_cons. by split.
  - by apply remove_enlist.
  - intros d Hne. by rewrite fn_lookup_insert_ne.
  - done.
Qed.

(** X3. In a store whose window lists are well formed,
    [ds_display_remove_window] leaves every window list as it was but
    without the window, which is then in no list, has no display and an
    unused link. *)
Theorem remove_window_unlists (wnd : ptr) (w w' : ds_world) :
  windows_wf w →
  ds_display_remove_window wnd w = Ret ((), w') →
  (∀ d, disp_windows (mem_display w' d) = list_remove wnd (disp_windows (mem_display w d))) ∧
  (∀ d, wnd ∉ disp_windows (mem_display w' d)) ∧
  mem_window w' wnd
  = mk_window None None (wnd_id (mem_window w wnd)) (wnd_flags (mem_window w wnd)) ∧
  (∀ p, p ≠ wnd → mem_window w' p = mem_window w p).
Proof.
  intros (N & L & B) H.
  destruct (remove_window_inv _ _ _ H) as [disp Hd].
  rewrite (remove_window_eq _ _ disp) in H by done. injection H as <-. simpl.
  assert (∀ d, disp_windows
                 (match ldwindows (mem_window w wnd) with
                  | Some owner =>
                      <[owner:=with_windows
                                 (list_remove wnd (disp_windows (mem_display w owner)))
                                 (mem_display w owner)]> (mem_display w)
                  | None => mem_display w
                  end d)
               = list_remove wnd (disp_windows (mem_display w d))) as Hrem.
  { intros d. destruct (ldwindows (mem_window w wnd)) as [owner|] eqn:Hl.
    - destruct (decide (owner = d)) as [->|Hne].
      + by rewrite fn_lookup_insert.
      + rewrite fn_lookup_insert_ne by done. symmetry. apply list_remove_not_in.
        rewrite L, Hl. congruence.
    - symmetry. apply list_remove_not_in. rewrite L, Hl. congruence. }
  split; [done|]. split; [|split].
  - intros d. rewrite Hrem, elem_of_list_remove. by intros [? _].
  - by rewrite fn_lookup_insert.
  - intros p Hp. by rewrite !fn_lookup_insert_ne.
Qed.

(** X4. Adding a window that is in no list of its display and removing
    it again gives back every display and every window as they were;
    only the two rounds of notifications stay in the call log. *)
Theorem add_remove_window_round_trip (display wnd : ptr) (w w1 : ds_world) :
  wnd ∉ disp_windows (mem_display w display) →
  ds_display_add_window display wnd w = Ret ((), w1) →
  ∃ w2,
    ds_display_remove_window wnd w1 = Ret ((), w2) ∧
    (∀ d, mem_display w2 d = mem_display w d) ∧
    (∀ p, mem_window w2 p = mem_window w p) ∧
    calls w2
    = calls w
      ++ map (λ wm, call_wnd_added wm (wnd_id (mem_window w wnd)))
           (disp_wmclients (mem_display w display))
      ++ map (λ wm, call_wnd_removed wm (wnd_id (mem_window w wnd)))
           (disp_wmclients (mem_display w display)).
Proof.
  intros Hout H.
  destruct (add_window_inv _ _ _ _ H) as [Hd Hl].
  rewrite add_window_eq in H by done. injection H as <-.
  eexists. split.
  { apply (remove_window_eq _ _ display). simpl. by rewrite !fn_lookup_insert. }
  simpl. rewrite !fn_lookup_insert. simpl. rewrite !fn_lookup_insert. simpl.
  split; [|split].
  - intros d. destruct (decide (display = d)) as [->|Hne].
    + rewrite !fn_lookup_insert. unfold with_windows. simpl.
      rewrite remove_enlist by done. by destruct (mem_display w d).
    + by rewrite !fn_lookup_insert_ne.
  - intros p. destruct (decide (wnd = p)) as [->|Hne].
    + rewrite fn_lookup_insert. destruct (mem_window w p). simpl in *. by subst.
    + by rewrite !fn_lookup_insert_ne.
  - by rewrite <- app_assoc.
Qed.

Lemma filter_topmost_all_ntop (wnds : ptr → ds_window_t) (k : list ptr) :
  Forall (λ b, is_topmost (wnds b) = false) k →
  filter (λ p, is_topmost (wnds p) = true) k = [] ∧
  filter (λ p, is_topmost (wnds p) = false) k = k.
Proof.
  induction 1 as [|a k Ha _ [IH1 IH2]]; [done|].
  rewrite !filter_cons. rewrite decide_False by congruence.
  rewrite decide_True by done. by rewrite IH1, IH2.
Qed.

Lemma before_first_non_topmost_classes (wnds : ptr → ds_window_t) wnd k :
  tf wnds k →
  before_first_non_topmost wnds wnd k
  = filter (λ p, is_topmost (wnds p) = true) k
    ++ wnd :: filter (λ p, is_topmost (wnds p) = false) k.
Proof.
  induction k as [|a k IH]; simpl; [done|]. intros [Ha Hk].
  destruct (is_topmost (wnds a)) eqn:E.
  - rewrite !filter_cons, decide_True, decide_False by congruence.
    rewrite IH by done. done.
  - destruct (filter_topmost_all_ntop wnds k (Ha eq_refl)) as [F1 F2].
    rewrite !filter_cons, decide_False, decide_True by congruence.
    by rewrite F1, F2.
Qed.

(** X5. [ds_display_window_to_top] on a window enlisted in the ordered
    list of its display moves it to the front of its class and nothing
    else: all other windows keep their order; a topmost window becomes
    the first of the list; a window that is not topmost comes right
    after the topmost windows, before every other window that is not
    topmost. *)
Theorem window_to_top_front_of_class (wnd d : ptr) (w w1 : ds_world) :
  wnd_display (mem_window w wnd) = Some d →
  ldwindows (mem_window w wnd) = Some d →
  topmost_first (mem_window w) (disp_windows (mem_display w d)) →
  ds_display_window_to_top wnd w = Ret ((), w1) →
  let wnds := mem_window w in
  let l := disp_windows (mem_display w d) in
  let l' := disp_windows (mem_display w1 d) in
  list_remove wnd l' = list_remove wnd l ∧
  (is_topmost (wnds wnd) = true → l' = wnd :: list_remove wnd l) ∧
  (is_topmost (wnds wnd) = false →
   l' = filter (λ p, is_topmost (wnds p) = true) (list_remove wnd l)
        ++ wnd :: filter (λ p, is_topmost (wnds p) = false) (list_remove wnd l)).
Proof.
  intros Hd Hl Hord H. simpl.
  destruct (window_to_top_spec wnd w d Hd Hl) as (w1' & R & _ & D & _).
  rewrite R in H. injection H as ->. rewrite D. simpl.
  split; [apply remove_enlist_idem|]. split.
  - intros Ht. by apply enlist_list_top.
  - intros Ht. rewrite enlist_list_ntop by done.
    apply before_first_non_topmost_classes, tf_remove. by apply topmost_first_tf.
Qed.

(** X6. [ds_display_add_window] posts "window added" with the window's
    id to every WM client of the display, once each, in the order of
    the WM client list; [ds_display_remove_window] does the same with
    "window removed" for the display the window was on;
    [ds_display_window_to_top] notifies nobody. *)
Theorem window_notifications (display wnd : ptr) (w w' : ds_world) :
  (ds_display_add_window display wnd w = Ret ((), w') →
   calls w'
   = calls w ++ map (λ wm, call_wnd_added wm (wnd_id (mem_window w wnd)))
                  (disp_wmclients (mem_display w display))) ∧
  (ds_display_remove_window wnd w = Ret ((), w') →
   ∃ disp,
     wnd_display (mem_window w wnd) = Some disp ∧
     calls w'
     = calls w ++ map (λ wm, call_wnd_removed wm (wnd_id (mem_window w wnd)))
                    (disp_wmclients (mem_display w disp))) ∧
  (ds_display_window_to_top wnd w = Ret ((), w') → calls w' = calls w).
Proof.
  split; [|split]; intros H.
  - destruct (add_window_inv _ _ _ _ H) as [Hd Hl].
    rewrite add_window_eq in H by done. by injection H as <-.
  - destruct (remove_window_inv _ _ _ H) as [disp Hd]. exists disp. split; [done|].
    rewrite (remove_window_eq _ _ disp) in H by done. injection H as <-. simpl.
    do 2 f_equal. destruct (ldwindows (mem_window w wnd)) as [owner|]; [|done].
    destruct (decide (owner = disp)) as [->|Hne].
    + by rewrite fn_lookup_insert.
    + by rewrite fn_lookup_insert_ne.
  - destruct (window_to_top_inv _ _ _ H) as (disp & owner & Hd & Hl).
    rewrite (window_to_top_eq _ _ disp owner) in H by done. by injection H as <-.
Qed.

(** X7. [ds_display_remove_window] on a window that has no display does
    not return: it reads the WM client list through the NULL display
    pointer.  So after a remove that returned, a second remove of the
    same window ends there. *)
Theorem remove_window_twice (wnd : ptr) (w w1 : ds_world) :
  (wnd_display (mem_window w wnd) = None →
   ds_display_remove_window wnd w = Crash null_deref) ∧
  (ds_display_remove_window wnd w = Ret ((), w1) →
   ds_display_remove_window wnd w1 = Crash null_deref).
Proof.
  assert (∀ v, wnd_display (mem_window v wnd) = None →
               ds_display_remove_window wnd v = Crash null_deref) as Hc.
  { intros v Hd. unfold ds_display_remove_window.
    rewrite (bind_ret _ _ v (mem_window v wnd) v) by done.
    erewrite bind_ret by apply unlink_window_eq.
    erewrite bind_ret by apply window_set_eq. by rewrite Hd. }
  split; [apply Hc|]. intros H. apply Hc.
  destruct (remove_window_inv _ _ _ H) as [disp Hd].
  rewrite (remove_window_eq _ _ disp) in H by done. injection H as <-. simpl.
  by rewrite fn_lookup_insert.
Qed.

(** ** Iterating over the window list *)

Lemma list_next_middle (pre : list ptr) a suf :
  NoDup (pre ++ a :: suf) → list_next a (pre ++ a :: suf) = head suf.
Proof.
  induction pre as [|n pre IH]; simpl; intros Hnd.
  - by rewrite decide_True.
  - apply NoDup_cons in Hnd as [Hn Hnd].
    rewrite decide_False; [by apply IH|].
    intros ->. apply Hn. apply elem_of_app. right. by left.
Qed.

Lemma windows_wf_display w d wnd :
  windows_wf w → wnd ∈ disp_windows (mem_display w d) →
  wnd_display (mem_window w wnd) = Some d.
Proof. intros (_ & L & B) Hin. apply B. by apply L. Qed.

Lemma next_window_eq w d wnd :
  wnd_display (mem_window w wnd) = Some d →
  ds_display_next_window wnd w
  = Ret (list_next wnd (disp_windows (mem_display w d)), w).
Proof. intros Hd. unfold ds_display_next_window. msimpl. by rewrite Hd. Qed.

Lemma prev_window_eq w d wnd :
  wnd_display (mem_window w wnd) = Some d →
  ds_display_prev_window wnd w
  = Ret (list_prev wnd (disp_windows (mem_display w d)), w).
Proof. intros Hd. unfold ds_display_prev_window. msimpl. by rewrite Hd. Qed.

Lemma windows_forward_from w d pre suf fuel :
  windows_wf w →
  disp_windows (mem_display w d) = pre ++ suf →
  length suf ≤ fuel →
  windows_forward fuel (head suf) w = Ret (suf, w).
Proof.
  intros Hwf. revert pre fuel. induction suf as [|a suf IH]; intros pre fuel Hl Hf.
  - by destruct fuel.
  - destruct fuel as [|fuel]; simpl in *; [lia|].
    assert (a ∈ disp_windows (mem_display w d)) as Hin.
    { rewrite Hl. apply elem_of_app. right. by left. }
    erewrite bind_ret.
    2:{ apply (next_window_eq w d). by apply windows_wf_display. }
    rewrite Hl, list_next_middle.
    2:{ rewrite <- Hl. apply Hwf. }
    erewrite bind_ret; [done|].
    apply (IH (pre ++ [a])); [by rewrite <- app_assoc|lia].
Qed.

Lemma windows_backward_from w d pre suf fuel :
  windows_wf w →
  reverse (disp_windows (mem_display w d)) = pre ++ suf →
  length suf ≤ fuel →
  windows_backward fuel (head suf) w = Ret (suf, w).
Proof.
  intros Hwf. revert pre fuel. induction suf as [|a suf IH]; intros pre fuel Hl Hf.
  - by destruct fuel.
  - destruct fuel as [|fuel]; simpl in *; [lia|].
    assert (a ∈ disp_windows (mem_display w d)) as Hin.
    { apply elem_of_reverse. rewrite Hl. apply elem_of_app. right. by left. }
    erewrite bind_ret.
    2:{ apply (prev_window_eq w d). by apply windows_wf_display. }
    unfold list_prev. rewrite Hl, list_next_middle.
    2:{ rewrite <- Hl, reverse_Permutation. apply Hwf. }
    erewrite bind_ret; [done|].
    apply (IH (pre ++ [a])); [by rewrite <- app_assoc|lia].
Qed.

(** X8. In a store whose window lists are well formed, the loop from
    [ds_display_first_window] along [ds_display_next_window] visits the
    windows of the display once each, front to back, and the loop from
    [ds_display_last_window] along [ds_display_prev_window] visits them
    once each, back to front; neither changes the store. *)
Theorem window_iteration (d : ptr) (w : ds_world) (fuel : nat) :
  windows_wf w →
  length (disp_windows (mem_display w d)) ≤ fuel →
  (first ← ds_display_first_window d; windows_forward fuel first) w
  = Ret (disp_windows (mem_display w d), w) ∧
  (last ← ds_display_last_window d; windows_backward fuel last) w
  = Ret (reverse (disp_windows (mem_display w d)), w).
Proof.
  intros Hwf Hf. split.
  - erewrite bind_ret by done. unfold list_first.
    by apply (windows_forward_from w d []).
  - erewrite bind_ret by done. unfold list_last. rewrite <- head_reverse.
    apply (windows_backward_from w d []); [done..|by rewrite length_reverse].
Qed.

Lemma scan_topmost_from w d pre suf fuel :
  windows_wf w →
  disp_windows (mem_display w d) = pre ++ suf →
  length suf ≤ fuel →
  scan_topmost fuel (head suf) w = Ret (first_non_topmost (mem_window w) suf, w).
Proof.
  intros Hwf. revert pre fuel. induction suf as [|a suf IH]; intros pre fuel Hl Hf.
  - by destruct fuel.
  - destruct fuel as [|fuel]; simpl in *; [lia|].
    rewrite (bind_ret _ _ w (mem_window w a) w) by done.
    unfold is_topmost. destruct (negb _); [|done].
    assert (a ∈ disp_windows (mem_display w d)) as Hin.
    { rewrite Hl. apply elem_of_app. right. by left. }
    erewrite bind_ret.
    2:{ apply (next_window_eq w d). by apply windows_wf_display. }
    rewrite Hl, list_next_middle.
    2:{ rewrite <- Hl. apply Hwf. }
    apply (IH (pre ++ [a])); [by rewrite <- app_assoc|lia].
Qed.

(** X9. In a store whose window lists are well formed, the scan of
    [ds_display_enlist_window], run as the source writes it from
    [ds_display_first_window] along [ds_display_next_window], stops at
    the first window of the list that is not topmost, and at NULL when
    all are topmost. *)
Theorem enlist_scan_finds_first_non_topmost (d : ptr) (w : ds_world) (fuel : nat) :
  windows_wf w →
  length (disp_windows (mem_display w d)) ≤ fuel →
  (first ← ds_display_first_window d; scan_topmost fuel first) w
  = Ret (first_non_topmost (mem_window w) (disp_windows (mem_display w d)), w).
Proof.
  intros Hwf Hf. erewrite bind_ret by done. unfold list_first.
  by apply (scan_topmost_from w d []).
Qed.

(** ** Looking windows up *)

(** X10. [ds_display_find_window] asks the clients of the display in
    list order and returns the window of the first client that has one
    with the id; it returns NULL exactly when no client of the display
    has one.  It changes nothing. *)
Theorem find_window_first_client (find : ptr → Z → option ptr) (display : ptr)
    (id : Z) (w : ds_world) :
  ∃ r,
    ds_display_find_window find display id w = Ret (r, w) ∧
    match r with
    | Some wnd =>
        ∃ pre client suf,
          disp_clients (mem_display w display) = pre ++ client :: suf ∧
          Forall (λ c, find c id = None) pre ∧
          find client id = Some wnd
    | None => Forall (λ c, find c id = None) (disp_clients (mem_display w display))
    end.
Proof.
  eexists. split; [done|].
  induction (disp_clients (mem_display w display)) as [|c l IH]; simpl; [done|].
  destruct (find c id) as [wnd|] eqn:E.
  - exists [], c, l. by repeat split.
  - destruct (find_window_in find l id) as [wnd|].
    + destruct IH as (pre & client & suf & -> & Hpre & Hc).
      exists (c :: pre), client, suf. repeat split; [|done]. by constructor.
    + by constructor.
Qed.

Section by_pos.

Context (wnd_dpos : ptr → gfx_coord2_t) (wnd_rect : ptr → gfx_rect_t).
Context (gfx_rect_translate : gfx_coord2_t → gfx_rect_t → gfx_rect_t).

Local Abbreviation at_pos := (window_at wnd_dpos wnd_rect gfx_rect_translate).
Local Abbreviation by_pos_in := (window_by_pos_in wnd_dpos wnd_rect gfx_rect_translate).

Lemma window_by_pos_in_spec l pos :
  match by_pos_in l pos with
  | Some wnd =>
      ∃ pre suf, l = pre ++ wnd :: suf ∧
                 Forall (λ v, at_pos pos v = false) pre ∧ at_pos pos wnd = true
  | None => Forall (λ v, at_pos pos v = false) l
  end.
Proof.
  induction l as [|a l IH]; simpl; [done|].
  destruct (at_pos pos a) eqn:E.
  - exists [], l. by repeat split.
  - destruct (by_pos_in l pos) as [wnd|].
    + destruct IH as (pre & suf & -> & Hpre & Hw).
      exists (a :: pre), suf. repeat split; [|done]. by constructor.
    + by constructor.
Qed.

Lemma tf_app_r wnds (l1 l2 : list ptr) : tf wnds (l1 ++ l2) → tf wnds l2.
Proof. induction l1 as [|a l1 IH]; simpl; [done|]. intros [_ H]. auto. Qed.

End by_pos.

(** X11. [ds_display_window_by_pos] returns the frontmost window whose
    rectangle, moved to its position on the display, contains the point:
    the window is in the list, contains the point, and no window in
    front of it does; it returns NULL exactly when no window of the
    display contains the point.  It changes nothing. *)
Theorem window_by_pos_frontmost (wnd_dpos : ptr → gfx_coord2_t)
    (wnd_rect : ptr → gfx_rect_t)
    (gfx_rect_translate : gfx_coord2_t → gfx_rect_t → gfx_rect_t)
    (display : ptr) (pos : gfx_coord2_t) (w : ds_world) :
  ∃ r,
    ds_display_window_by_pos wnd_dpos wnd_rect gfx_rect_translate display pos w
    = Ret (r, w) ∧
    match r with
    | Some wnd =>
        ∃ pre suf,
          disp_windows (mem_display w display) = pre ++ wnd :: suf ∧
          Forall (λ v, window_at wnd_dpos wnd_rect gfx_rect_translate pos v = false) pre ∧
          window_at wnd_dpos wnd_rect gfx_rect_translate pos wnd = true
    | None =>
        Forall (λ v, window_at wnd_dpos wnd_rect gfx_rect_translate pos v = false)
          (disp_windows (mem_display w display))
    end.
Proof. eexists. split; [done|]. apply window_by_pos_in_spec. Qed.

(** X12. On a display whose window list has the topmost windows first,
    a topmost window is never hidden from [ds_display_window_by_pos] by a
    window that is not topmost: when some topmost window of the display
    contains the point, the window returned is topmost. *)
Theorem window_by_pos_prefers_topmost (wnd_dpos : ptr → gfx_coord2_t)
    (wnd_rect : ptr → gfx_rect_t)
    (gfx_rect_translate : gfx_coord2_t → gfx_rect_t → gfx_rect_t)
    (display : ptr) (pos : gfx_coord2_t) (w : ds_world) (v : ptr) :
  topmost_first (mem_window w) (disp_windows (mem_display w display)) →
  v ∈ disp_windows (mem_display w display) →
  is_topmost (mem_window w v) = true →
  window_at wnd_dpos wnd_rect gfx_rect_translate pos v = true →
  ∃ wnd,
    ds_display_window_by_pos wnd_dpos wnd_rect gfx_rect_translate display pos w
    = Ret (Some wnd, w) ∧
    is_topmost (mem_window w wnd) = true ∧
    window_at wnd_dpos wnd_rect gfx_rect_translate pos wnd = true.
Proof.
  intros Hord Hin Hv Hat. apply topmost_first_tf in Hord.
  unfold ds_display_window_by_pos. msimpl.
  pose proof (window_by_pos_in_spec wnd_dpos wnd_rect gfx_rect_translate
                (disp_windows (mem_display w display)) pos) as Hs.
  destruct (window_by_pos_in _ _ _ _ _) as [wnd|].
  - exists wnd. split; [done|]. destruct Hs as (pre & suf & Hl & Hpre & Hw).
    split; [|done]. rewrite Hl in Hin, Hord.
    apply elem_of_app in Hin as [Hin|Hin].
    { rewrite Forall_forall in Hpre. specialize (Hpre _ Hin). congruence. }
    apply elem_of_cons in Hin as [->|Hin]; [done|].
    apply tf_app_r in Hord. simpl in Hord. destruct Hord as [Hn _].
    destruct (is_topmost (mem_window w wnd)); [done|].
    specialize (Hn eq_refl). rewrite Forall_forall in Hn.
    specialize (Hn _ Hin). congruence.
  - rewrite Forall_forall in Hs. specialize (Hs _ Hin). congruence.
Qed.

(** ** Attaching, detaching and destroying *)

Lemma list_remove_append (e : ptr) l : e ∉ l → list_remove e (list_append e l) = l.
Proof.
  intros H. unfold list_remove, list_append. rewrite filter_app.
  fold (list_remove e l). rewrite list_remove_not_in by done.
  rewrite filter_cons, decide_False by (intros ?; done). apply app_nil_r.
Qed.

Lemma list_remove_prepend (e : ptr) l : e ∉ l → list_remove e (list_prepend e l) = l.
Proof.
  intros H. unfold list_remove, list_prepend.
  rewrite filter_cons, decide_False by (intros ?; done). by apply list_remove_not_in.
Qed.

Ltac round_trip Hout H :=
  unfold assert in H; msimpl;
  repeat match type of H with
         | context [bool_decide (?a = None)] => destruct a eqn:?; simpl in H; try done
         | context [link_used ?a] => destruct a eqn:?; simpl in H; try done
         end;
  injection H as <-; simpl; rewrite !fn_lookup_insert; simpl;
  eexists; split; [done|]; simpl; split;
  [ let p := fresh "p" in
    intros p;
    match goal with |- (<[?d := _]> _) p = _ => destruct (decide (d = p)) as [->|?] end;
    [ rewrite !fn_lookup_insert; simpl;
      rewrite ?list_remove_append, ?list_remove_prepend by done;
      match goal with |- _ = ?f ?q => by destruct (f q) end
    | by rewrite !fn_lookup_insert_ne ]
  | let p := fresh "p" in
    intros p;
    match goal with |- (<[?e := _]> _) p = _ => destruct (decide (e = p)) as [->|?] end;
    [ rewrite !fn_lookup_insert;
      match goal with |- _ = ?f ?q => destruct (f q); simpl in *; congruence end
    | by rewrite !fn_lookup_insert_ne ] ].

(** X13. Attaching a client, WM client, seat or cursor that is not in
    the display's list and detaching it again gives back every display
    and the entity as they were. *)
Theorem attach_detach_round_trip (disp e : ptr) (w w1 : ds_world) :
  (e ∉ disp_clients (mem_display w disp) →
   ds_display_add_client disp e w = Ret ((), w1) →
   ∃ w2, ds_display_remove_client e w1 = Ret ((), w2) ∧
         (∀ p, mem_display w2 p = mem_display w p) ∧
         (∀ p, mem_client w2 p = mem_client w p)) ∧
  (e ∉ disp_wmclients (mem_display w disp) →
   ds_display_add_wmclient disp e w = Ret ((), w1) →
   ∃ w2, ds_display_remove_wmclient e w1 = Ret ((), w2) ∧
         (∀ p, mem_display w2 p = mem_display w p) ∧
         (∀ p, mem_wmclient w2 p = mem_wmclient w p)) ∧
  (e ∉ disp_seats (mem_display w disp) →
   ds_display_add_seat disp e w = Ret ((), w1) →
   ∃ w2, ds_display_remove_seat e w1 = Ret ((), w2) ∧
         (∀ p, mem_display w2 p = mem_display w p) ∧
         (∀ p, mem_seat w2 p = mem_seat w p)) ∧
  (e ∉ disp_cursors (mem_display w disp) →
   ds_display_add_cursor disp e w = Ret ((), w1) →
   ∃ w2, ds_display_remove_cursor e w1 = Ret ((), w2) ∧
         (∀ p, mem_display w2 p = mem_display w p) ∧
         (∀ p, mem_cursor w2 p = mem_cursor w p)).
Proof.
  repeat apply conj; intros Hout H.
  - unfold ds_display_add_client in H. unfold ds_display_remove_client.
    round_trip Hout H.
  - unfold ds_display_add_wmclient in H. unfold ds_display_remove_wmclient.
    round_trip Hout H.
  - unfold ds_display_add_seat in H. unfold ds_display_remove_seat.
    round_trip Hout H.
  - unfold ds_display_add_cursor in H. unfold ds_display_remove_cursor.
    round_trip Hout H.
Qed.

Lemma same_collections_refl d : same_collections d d.
Proof. by repeat split. Qed.

(** [ds_display_add_ddev] changes no collection but the device list. *)
Lemma add_ddev_collections env disp ddev w rc w' :
  ds_display_add_ddev env disp ddev w = Ret (rc, w') →
  ∀ p, same_collections (mem_display w p) (mem_display w' p).
Proof.
  intros H. destruct (add_ddev_ret_unattached _ _ _ _ _ _ H) as [Hd Hl].
  revert H. unfold ds_display_add_ddev, assert.
  rewrite (bind_ret _ _ w (mem_ddev w ddev) w) by done.
  rewrite Hd, Hl. simpl.
  rewrite (bind_ret _ _ w () w) by done.
  rewrite (bind_ret _ _ w () w) by done.
  erewrite bind_ret by done. erewrite bind_ret by done.
  erewrite bind_ret by done. erewrite bind_ret by done.
  simpl. fn_simpl. simpl.
  assert (∀ (f : ptr → ds_display_t) v p,
            same_collections (f disp) v →
            same_collections (f p) (f p) →
            same_collections (f p) ((<[disp := v]> f) p)) as Hins.
  { intros f v p Hv _. destruct (decide (disp = p)) as [->|Hne]; fn_simpl; [done|].
    apply same_collections_refl. }
  destruct (gfx_rect_is_empty (disp_rect (mem_display w disp))) eqn:He.
  - erewrite bind_ret by done.
    destruct (ds_clonegc_create env _) as [rc1 fbgc] eqn:Ec.
    destruct (is_error rc1) eqn:E1.
    { intros [= <- <-] p. simpl.
      destruct (decide (disp = p)) as [->|Hne]; fn_simpl;
        [by repeat split|apply same_collections_refl]. }
    erewrite bind_ret by done.
    match goal with |- context [mbind _ (ds_display_alloc_backbuf env disp) ?w1] =>
      destruct (alloc_backbuf_summary env disp w1)
        as (rc2 & w2 & R2 & O2 & DD2 & S2 & _) end.
    erewrite bind_ret by exact R2.
    simpl in *. revert S2. fn_simpl. simpl.
    unfold same_but_backbuf. simpl. intros S2.
    destruct (is_error rc2) eqn:E2.
    + unfold add_ddev_error. msimpl. simpl. rewrite DD2. simpl. fn_simpl. simpl.
      intros [= <- <-] p. simpl.
      destruct (decide (disp = p)) as [->|Hne]; fn_simpl; simpl.
      * unfold same_collections. simpl. intuition congruence.
      * rewrite O2 by done. fn_simpl. apply same_collections_refl.
    + intros [= <- <-] p.
      destruct (decide (disp = p)) as [->|Hne].
      * unfold same_collections. intuition congruence.
      * rewrite O2 by done. fn_simpl. apply same_collections_refl.
  - destruct (is_error (ds_clonegc_add_output env _ _)) eqn:E1.
    + unfold add_ddev_error. msimpl. simpl. fn_simpl. simpl.
      intros [= <- <-] p. simpl.
      destruct (decide (disp = p)) as [->|Hne]; fn_simpl;
        [by repeat split|apply same_collections_refl].
    + intros [= <- <-] p. simpl.
      destruct (decide (disp = p)) as [->|Hne]; fn_simpl;
        [by repeat split|apply same_collections_refl].
Qed.

Lemma destroy_eq disp w :
  ds_display_destroy disp w
  = if list_empty (disp_clients (mem_display w disp))
       && list_empty (disp_wmclients (mem_display w disp))
       && list_empty (disp_seats (mem_display w disp))
    then Ret ((), w) else Crash assert_failed.
Proof.
  unfold ds_display_destroy, assert. msimpl.
  destruct (list_empty (disp_clients _)); simpl; [|done].
  destruct (list_empty (disp_wmclients _)); simpl; [|done].
  by destruct (list_empty (disp_seats _)).
Qed.

Lemma list_empty_append e l : list_empty (list_append e l) = false.
Proof. by destruct l. Qed.

(** X14. [ds_display_destroy] is stopped by an attached client, WM
    client or seat, and by nothing else: right after one of them was
    attached it ends in a failed assertion; a display as created is
    destroyed; and where destroying was possible it stays possible after
    a window, a cursor or a display device was attached, whose
    back-references are left behind. *)
Theorem destroy_checks_clients_and_seats (env : ds_env) (disp e : ptr)
    (w w1 : ds_world) :
  (ds_display_add_client disp e w = Ret ((), w1) →
   ds_display_destroy disp w1 = Crash assert_failed) ∧
  (ds_display_add_wmclient disp e w = Ret ((), w1) →
   ds_display_destroy disp w1 = Crash assert_failed) ∧
  (ds_display_add_seat disp e w = Ret ((), w1) →
   ds_display_destroy disp w1 = Crash assert_failed) ∧
  (∀ flags bg cursors,
     mem_display w disp = ds_display_created flags bg cursors →
     ds_display_destroy disp w = Ret ((), w)) ∧
  (ds_display_destroy disp w = Ret ((), w) →
   (ds_display_add_window disp e w = Ret ((), w1) →
    ds_display_destroy disp w1 = Ret ((), w1) ∧
    wnd_display (mem_window w1 e) = Some disp) ∧
   (ds_display_add_cursor disp e w = Ret ((), w1) →
    ds_display_destroy disp w1 = Ret ((), w1) ∧
    cursor_display (mem_cursor w1 e) = Some disp) ∧
   (ds_display_add_ddev env disp e w = Ret (EOK, w1) →
    ds_display_destroy disp w1 = Ret ((), w1) ∧
    ddev_display (mem_ddev w1 e) = Some disp)).
Proof.
  rewrite !destroy_eq. split; [|split; [|split; [|split]]].
  - unfold ds_display_add_client, assert. msimpl.
    destruct (bool_decide _); simpl; [|done].
    destruct (negb _); simpl; [|done]. intros [= <-]. simpl. fn_simpl. simpl.
    by rewrite list_empty_append.
  - unfold ds_display_add_wmclient, assert. msimpl.
    destruct (bool_decide _); simpl; [|done].
    destruct (negb _); simpl; [|done]. intros [= <-]. simpl. fn_simpl. simpl.
    rewrite list_empty_append. by rewrite andb_false_r.
  - unfold ds_display_add_seat, assert. msimpl.
    destruct (bool_decide _); simpl; [|done].
    destruct (negb _); simpl; [|done]. intros [= <-]. simpl. fn_simpl. simpl.
    rewrite list_empty_append. by rewrite andb_false_r.
  - by intros flags bg cursors ->.
  - intros Hd. split; [|split].
    { intros H. destruct (add_window_inv _ _ _ _ H) as [Hdn Hl].
      rewrite add_window_eq in H by done. injection H as <-. simpl. fn_simpl. simpl.
      destruct (_ && _); [done|discriminate]. }
    { unfold ds_display_add_cursor, assert. msimpl.
      destruct (bool_decide _); simpl; [|done].
      destruct (negb _); simpl; [|done]. intros [= <-]. simpl. fn_simpl. simpl.
      destruct (_ && _); [done|discriminate]. }
    intros H.
    destruct (add_ddev_collections _ _ _ _ _ _ H disp) as (-> & -> & -> & _).
    split; [by destruct (_ && _)|].
    destruct (add_ddev_ret_unattached _ _ _ _ _ _ H) as [Hdn Hl].
    revert H. unfold ds_display_add_ddev, assert, add_ddev_error.
    rewrite (bind_ret _ _ w (mem_ddev w e) w) by done.
    rewrite Hdn, Hl. simpl.
    rewrite (bind_ret _ _ w () w) by done.
    rewrite (bind_ret _ _ w () w) by done.
    erewrite bind_ret by done. erewrite bind_ret by done.
    erewrite bind_ret by done. erewrite bind_ret by done.
    simpl. fn_simpl. simpl.
    destruct (gfx_rect_is_empty _).
    + erewrite bind_ret by done.
      destruct (ds_clonegc_create env _) as [rc1 fbgc].
      destruct (is_error rc1); [done|].
      erewrite bind_ret by done.
      match goal with |- context [mbind _ (ds_display_alloc_backbuf env disp) ?w1] =>
        destruct (alloc_backbuf_summary env disp w1)
          as (rc2 & w2 & R2 & _ & DD2 & _) end.
      erewrite bind_ret by exact R2.
      destruct (is_error rc2) eqn:E2.
      * msimpl. simpl. rewrite DD2. simpl. fn_simpl. simpl.
        intros [= E _]. by rewrite E in E2.
      * intros [= <-]. rewrite DD2. simpl. by fn_simpl.
    + destruct (is_error _) eqn:E1.
      * msimpl. simpl. fn_simpl. simpl. intros [= E _]. by rewrite E in E1.
      * intros [= <-]. simpl. by fn_simpl.
Qed.

(** ** The desktop rectangle and the input seat *)

(** X15. The rectangle [ds_display_get_info] reports is set by the
    display device attached while it is empty and by no other successful
    attach; detaching a device changes neither it nor the cloning GC nor
    the back buffer of any display, so a display keeps the rectangle of
    a device that is gone. *)
Theorem desktop_rect_from_first_device (env : ds_env) (disp ddev : ptr)
    (w w' : ds_world) :
  (ds_display_add_ddev env disp ddev w = Ret (EOK, w') →
   ds_display_get_info disp w'
   = Ret (mk_display_info
            (if gfx_rect_is_empty (disp_rect (mem_display w disp))
             then ddev_info_rect (mem_ddev w ddev)
             else disp_rect (mem_display w disp)), w') ∧
   ∀ p, p ≠ disp → mem_display w' p = mem_display w p) ∧
  (ds_display_remove_ddev ddev w = Ret ((), w') →
   ∀ p, ds_display_get_info p w' = Ret (mk_display_info (disp_rect (mem_display w p)), w') ∧
        disp_fbgc (mem_display w' p) = disp_fbgc (mem_display w p) ∧
        disp_backbuf (mem_display w' p) = disp_backbuf (mem_display w p) ∧
        disp_bbgc (mem_display w' p) = disp_bbgc (mem_display w p)).
Proof.
  split; intros H.
  - destruct (add_ddev_ret_unattached _ _ _ _ _ _ H) as [Hd Hl].
    destruct (add_ddev_summary env disp ddev w Hd Hl)
      as (rc & w2 & R & O & _ & _ & Y & K).
    rewrite R in H. injection H as -> ->. split; [|done].
    unfold ds_display_get_info. msimpl. simpl in *.
    destruct (gfx_rect_is_empty (disp_rect (mem_display w disp))).
    + by destruct (Y eq_refl eq_refl) as (-> & _).
    + by destruct (K eq_refl eq_refl) as (_ & _ & ->).
  - destruct (remove_ddev_displays ddev w) as (w2 & R & _ & D).
    rewrite R in H. injection H as <-. intros p.
    unfold ds_display_get_info. msimpl. by destruct (D p) as [l ->].
Qed.

(** X16. Input goes to the seat that was attached first and is still
    attached: attaching a seat to a display that has seats does not
    change the seat [ds_display_seat_by_idev] returns, and on a display
    without seats it is the new one; detaching another seat than the
    first does not change it either, and detaching the first seat passes
    input on to the seat after it. *)
Theorem input_seat_is_first_attached (disp seat : ptr) (idev_id : Z)
    (w w' : ds_world) :
  (ds_display_add_seat disp seat w = Ret ((), w') →
   ds_display_seat_by_idev disp idev_id w'
   = Ret (match head (disp_seats (mem_display w disp)) with
          | Some first => Some first
          | None => Some seat
          end, w')) ∧
  (lseats (mem_seat w seat) = Some disp →
   NoDup (disp_seats (mem_display w disp)) →
   ds_display_remove_seat seat w = Ret ((), w') →
   ds_display_seat_by_idev disp idev_id w'
   = Ret (match disp_seats (mem_display w disp) with
          | first :: rest => if decide (first = seat) then head rest else Some first
          | [] => None
          end, w')).
Proof.
  unfold ds_display_seat_by_idev, ds_display_first_seat, list_first. split.
  - unfold ds_display_add_seat, assert. msimpl.
    destruct (bool_decide _); simpl; [|done].
    destruct (negb _); simpl; [|done]. intros [= <-]. simpl. fn_simpl. simpl.
    by destruct (disp_seats (mem_display w disp)).
  - intros Hl Hnd. unfold ds_display_remove_seat. msimpl. rewrite Hl. simpl.
    intros [= <-]. simpl. fn_simpl. simpl.
    destruct (disp_seats (mem_display w disp)) as [|first rest]; [done|].
    apply NoDup_cons in Hnd as [Hf _].
    unfold list_remove. rewrite filter_cons.
    destruct (decide (first = seat)) as [->|Hne].
    + rewrite decide_False by (intros ?; done).
      fold (list_remove seat rest). by rewrite list_remove_not_in.
    + by rewrite decide_True.
Qed.

(** ** Painting *)

Lemma drawn_all_frame env disp cs w :
  mem_window (drawn_all env disp cs w) = mem_window w ∧
  ∀ p, p ≠ disp → mem_display (drawn_all env disp cs w) p = mem_display w p.
Proof.
  revert w. induction cs as [|c cs IH]; intros w; simpl; [done|].
  destruct (IH (invalidated disp (snd (answer env c)) (logged [c] w))) as [W O].
  destruct (invalidated_fields disp (snd (answer env c)) (logged [c] w))
    as (_ & _ & _ & _ & O1 & _ & W1 & _).
  simpl in *. split; [by rewrite W, W1|]. intros p Hp. by rewrite O, O1.
Qed.

(** X17. When [ds_display_paint] returns [EOK], every paint step was
    made and succeeded, in the order background, windows back to front,
    previews back to front, pointers in seat order; with a back buffer
    the accumulated dirty rectangle was then rendered and is reset to
    (0,0)-(0,0), and without one nothing more was called and the dirty
    rectangle stays as accumulated. *)
Theorem paint_success (env : ds_env) (disp : ptr) (rect : option gfx_rect_t)
    (w w' : ds_world) :
  ds_display_paint env disp rect w = Ret (EOK, w') →
  let steps := paint_steps env disp rect w in
  let dirty :=
    fold_left gfx_rect_envelope (invalidations env steps)
      (disp_dirty_rect (mem_display w disp)) in
  Forall (λ c, fst (answer env c) = EOK) steps ∧
  match disp_backbuf (mem_display w disp) with
  | Some bm =>
      calls w' = calls w ++ steps ++ [call_bitmap_render bm dirty] ∧
      gfx_bitmap_render env bm dirty = EOK ∧
      disp_dirty_rect (mem_display w' disp) = rect_zero
  | None =>
      calls w' = calls w ++ steps ∧
      disp_dirty_rect (mem_display w' disp) = dirty
  end.
Proof.
  intros Hp. simpl.
  destruct (double_buffered (mem_display w disp) &&
            bool_decide (disp_bbgc (mem_display w disp) = None)) eqn:Hgc.
  { by rewrite paint_crash in Hp. }
  rewrite paint_eq in Hp by done.
  destruct (run_draws_cases env disp (paint_steps env disp rect w)
              (ds_display_update env disp) w)
    as [[Hall Hrun]|(done & failing & rest & Hsteps & Hall & Hf & Hrun)];
    rewrite Hrun in Hp; clear Hrun.
  - split; [done|].
    destruct (drawn_all_fields env disp (paint_steps env disp rect w) w)
      as (_ & B & _ & D & C). simpl in *.
    rewrite update_eq in Hp. simpl in Hp. rewrite B in Hp.
    destruct (disp_backbuf (mem_display w disp)) as [bm|].
    + rewrite D in Hp. destruct (is_error _) eqn:E.
      * injection Hp as Hrc _. by rewrite Hrc in E.
      * injection Hp as <-. apply is_error_EOK in E. simpl. fn_simpl. simpl.
        by rewrite C, <- app_assoc.
    + by injection Hp as <-.
  - injection Hp as E _. done.
Qed.

(** X18. [ds_display_paint], whatever it returns, changes of the store
    only the dirty rectangle of the display it paints and the call log:
    the window lists and every other field of that display but the dirty
    rectangle, the other displays and the windows stay as they were. *)
Theorem paint_changes_only_dirty_rect (env : ds_env) (disp : ptr)
    (rect : option gfx_rect_t) (w w' : ds_world) (rc : errno_t) :
  ds_display_paint env disp rect w = Ret (rc, w') →
  same_but_backbuf (mem_display w disp) (mem_display w' disp) ∧
  disp_backbuf (mem_display w' disp) = disp_backbuf (mem_display w disp) ∧
  disp_bbgc (mem_display w' disp) = disp_bbgc (mem_display w disp) ∧
  mem_window w' = mem_window w ∧
  (∀ p, p ≠ disp → mem_display w' p = mem_display w p).
Proof.
  intros Hp.
  destruct (double_buffered (mem_display w disp) &&
            bool_decide (disp_bbgc (mem_display w disp) = None)) eqn:Hgc.
  { by rewrite paint_crash in Hp. }
  rewrite paint_eq in Hp by done.
  destruct (run_draws_cases env disp (paint_steps env disp rect w)
              (ds_display_update env disp) w)
    as [[Hall Hrun]|(done & failing & rest & Hsteps & Hall & Hf & Hrun)];
    rewrite Hrun in Hp; clear Hrun.
  - destruct (drawn_all_fields env disp (paint_steps env disp rect w) w)
      as (S & B & G & _ & _).
    destruct (drawn_all_frame env disp (paint_steps env disp rect w) w) as [W O].
    simpl in *. rewrite update_eq in Hp. simpl in Hp.
    destruct (disp_backbuf (mem_display (drawn_all env disp _ w) disp)) as [bm|] eqn:Eb
      in Hp.
    + destruct (is_error _); injection Hp as <- <-; simpl; fn_simpl; simpl.
      * split; [exact S|]. split; [exact B|]. split; [exact G|].
        split; [exact W|exact O].
      * unfold same_but_backbuf in *. simpl.
        split; [intuition|]. split; [exact B|]. split; [exact G|]. split; [exact W|].
        intros p Hne. fn_simpl. by apply O.
    + injection Hp as <- <-.
      split; [exact S|]. split; [exact B|]. split; [exact G|]. split; [exact W|exact O].
  - injection Hp as <- <-.
    destruct (drawn_all_fields env disp (done ++ [failing]) w) as (S & B & G & _ & _).
    destruct (drawn_all_frame env disp (done ++ [failing]) w) as [W O].
    split; [exact S|]. split; [exact B|]. split; [exact G|]. split; [exact W|exact O].
Qed.

(** ** More on the dirty rectangle and the back buffer *)



(** X20. The pixels of the dirty rectangle do not depend on the order
    in which rectangles are invalidated: from the same sorted dirty
    rectangle, the callbacks for sorted rectangles in one order and in
    another leave dirty rectangles that cover each other. *)
Theorem invalidate_order_irrelevant (disp : ptr) (rs rs' : list gfx_rect_t)
    (w : ds_world) :
  rect_sorted (disp_dirty_rect (mem_display w disp)) →
  Forall rect_sorted rs →
  rs ≡ₚ rs' →
  ∃ w1 w2,
    invalidate_all disp rs w = Ret ((), w1) ∧
    invalidate_all disp rs' w = Ret ((), w2) ∧
    rect_within (disp_dirty_rect (mem_display w1 disp))
      (disp_dirty_rect (mem_display w2 disp)) ∧
    rect_within (disp_dirty_rect (mem_display w2 disp))
      (disp_dirty_rect (mem_display w1 disp)).
Proof.
  intros Sa Srs Hperm.
  assert (Forall rect_sorted rs') as Srs' by (by rewrite <- Hperm).
  exists (invalidated disp rs w), (invalidated disp rs' w).
  split; [apply invalidate_all_eq|]. split; [apply invalidate_all_eq|].
  rewrite !invalidated_dirty_rect.
  destruct (fold_envelope_spec rs _ Sa Srs) as (_ & A1 & C1 & L1).
  destruct (fold_envelope_spec rs' _ Sa Srs') as (_ & A2 & C2 & L2).
  split.
  - apply L1; [done|]. intros r Hr. apply C2. by rewrite <- Hperm.
  - apply L2; [done|]. intros r Hr. apply C1. by rewrite Hperm.
Qed.

(** X21. [ds_display_alloc_backbuf] on a double-buffered display is all
    or nothing for the bitmap: when it returns [EOK] the display has a
    back buffer and a memory GC and an empty dirty rectangle, and when it
    returns an error the display has no back buffer, and its memory GC
    and dirty rectangle are as before; either way only these three
    fields of this one display change. *)
Theorem alloc_backbuf_all_or_nothing (env : ds_env) (disp : ptr) (w w' : ds_world)
    (rc : errno_t) :
  double_buffered (mem_display w disp) = true →
  ds_display_alloc_backbuf env disp w = Ret (rc, w') →
  same_but_backbuf (mem_display w disp) (mem_display w' disp) ∧
  (∀ p, p ≠ disp → mem_display w' p = mem_display w p) ∧
  (rc = EOK →
   is_Some (disp_backbuf (mem_display w' disp)) ∧
   is_Some (disp_bbgc (mem_display w' disp)) ∧
   disp_dirty_rect (mem_display w' disp) = rect_zero) ∧
  (rc ≠ EOK →
   disp_backbuf (mem_display w' disp) = None ∧
   disp_bbgc (mem_display w' disp) = disp_bbgc (mem_display w disp) ∧
   disp_dirty_rect (mem_display w' disp) = disp_dirty_rect (mem_display w disp)).
Proof.
  intros Hdb H.
  destruct (alloc_backbuf_summary env disp w) as (rc' & w2 & R & O & _ & S & _ & Y & F).
  rewrite R in H. injection H as -> ->. simpl in *. auto.
Qed.

(** ** Stepping through the lists, and the assertions on windows and devices *)


Lemma add_window_asserts display wnd w :
  wnd_display (mem_window w wnd) ≠ None ∨ ldwindows (mem_window w wnd) ≠ None →
  ds_display_add_window display wnd w = Crash assert_failed.
Proof.
  unfold ds_display_add_window, assert. msimpl.
  destruct (wnd_display (mem_window w wnd)); simpl; [done|].
  destruct (ldwindows (mem_window w wnd)); simpl; [done|]. by intros [?|?].
Qed.

Lemma window_to_top_asserts wnd w :
  wnd_display (mem_window w wnd) = None ∨ ldwindows (mem_window w wnd) = None →
  ds_display_window_to_top wnd w = Crash assert_failed.
Proof.
  unfold ds_display_window_to_top, assert. msimpl.
  destruct (wnd_display (mem_window w wnd)); simpl;
    destruct (ldwindows (mem_window w wnd)); simpl; try done.
  by intros [?|?].
Qed.

(** X23. The assertions on windows: [ds_display_add_window] ends in a
    failed assertion for a window that has a display or whose link is in
    use, so after an add that returned, a second add of the window to any
    display; [ds_display_window_to_top] ends in one for a window without
    display or with a link not in use, so after a remove that returned. *)
Theorem window_assertions (display wnd : ptr) (w w1 : ds_world) :
  (wnd_display (mem_window w wnd) ≠ None ∨ ldwindows (mem_window w wnd) ≠ None →
   ds_display_add_window display wnd w = Crash assert_failed) ∧
  (wnd_display (mem_window w wnd) = None ∨ ldwindows (mem_window w wnd) = None →
   ds_display_window_to_top wnd w = Crash assert_failed) ∧
  (ds_display_add_window display wnd w = Ret ((), w1) →
   ∀ display', ds_display_add_window display' wnd w1 = Crash assert_failed) ∧
  (ds_display_remove_window wnd w = Ret ((), w1) →
   ds_display_window_to_top wnd w1 = Crash assert_failed).
Proof.
  split; [apply add_window_asserts|]. split; [apply window_to_top_asserts|]. split.
  - intros H display'. apply add_window_asserts.
    destruct (add_window_inv _ _ _ _ H) as [Hd Hl].
    rewrite add_window_eq in H by done. injection H as <-. simpl.
    rewrite fn_lookup_insert. simpl. by right.
  - intros H. apply window_to_top_asserts.
    destruct (remove_window_inv _ _ _ H) as [disp Hd].
    rewrite (remove_window_eq _ _ disp) in H by done. injection H as <-. simpl.
    rewrite fn_lookup_insert. by left.
Qed.

Lemma add_ddev_backref env disp ddev w rc w' :
  ds_display_add_ddev env disp ddev w = Ret (rc, w') →
  ddev_display (mem_ddev w' ddev) = Some disp.
Proof.
  intros H. destruct (add_ddev_ret_unattached _ _ _ _ _ _ H) as [Hdn Hl].
  revert H. unfold ds_display_add_ddev, assert, add_ddev_error.
  rewrite (bind_ret _ _ w (mem_ddev w ddev) w) by done.
  rewrite Hdn, Hl. simpl.
  rewrite (bind_ret _ _ w () w) by done.
  rewrite (bind_ret _ _ w () w) by done.
  erewrite bind_ret by done. erewrite bind_ret by done.
  erewrite bind_ret by done. erewrite bind_ret by done.
  simpl. fn_simpl. simpl.
  destruct (gfx_rect_is_empty _).
  - erewrite bind_ret by done.
    destruct (ds_clonegc_create env _) as [rc1 fbgc].
    destruct (is_error rc1).
    { intros [= _ <-]. simpl. by fn_simpl. }
    erewrite bind_ret by done.
    match goal with |- context [mbind _ (ds_display_alloc_backbuf env disp) ?w1] =>
      destruct (alloc_backbuf_summary env disp w1)
        as (rc2 & w2 & R2 & _ & DD2 & _) end.
    erewrite bind_ret by exact R2.
    destruct (is_error rc2).
    + msimpl. simpl. rewrite DD2. simpl. fn_simpl. simpl.
      intros [= _ <-]. simpl. by fn_simpl.
    + intros [= _ <-]. rewrite DD2. simpl. by fn_simpl.
  - destruct (is_error _).
    + msimpl. simpl. fn_simpl. simpl. intros [= _ <-]. simpl. by fn_simpl.
    + intros [= _ <-]. simpl. by fn_simpl.
Qed.

(** X24. Whatever [ds_display_add_ddev] returns, success or error, the
    device is left with its back-reference set, so attaching the same
    device again, to any display, ends in a failed assertion; after
    [ds_display_remove_ddev] the assertions hold again and the attach
    returns. *)
Theorem add_ddev_again_asserts (env env' : ds_env) (disp disp' ddev : ptr)
    (w w1 : ds_world) (rc : errno_t) :
  ds_display_add_ddev env disp ddev w = Ret (rc, w1) →
  ddev_display (mem_ddev w1 ddev) = Some disp ∧
  ds_display_add_ddev env' disp' ddev w1 = Crash assert_failed ∧
  ∃ w2,
    ds_display_remove_ddev ddev w1 = Ret ((), w2) ∧
    ∃ rc' w3, ds_display_add_ddev env' disp' ddev w2 = Ret (rc', w3).
Proof.
  intros H. pose proof (add_ddev_backref _ _ _ _ _ _ H) as Hb.
  split; [done|]. split.
  - apply add_ddev_asserts. left. congruence.
  - destruct (remove_ddev_displays ddev w1) as (w2 & R & E & _).
    exists w2. split; [done|].
    destruct (add_ddev_summary env' disp' ddev w2) as (rc' & w3 & R3 & _);
      [by rewrite E..|]. eauto.
Qed.

(** X24: the device whose attach failed in [ds_clonegc_create]. *)
Lemma add_ddev_again_asserts_witness :
  ds_display_add_ddev env_ok 1%positive 1%positive
    (world_of (ds_display_add_ddev env_no_clonegc 1%positive 1%positive world0))
  = Crash assert_failed.
Proof.
  apply (add_ddev_again_asserts env_no_clonegc env_ok 1%positive 1%positive 1%positive
           world0 _ ENOMEM).
  vm_compute. reflexivity.
Defined.

(** ** The further properties at concrete stores *)

Lemma world_one_window_wf : windows_wf world_one_window.
Proof.
  apply (run_window_ops_wf [op_add_window 1%positive 1%positive] world0).
  - apply world0_windows_wf.
  - vm_compute. reflexivity.
Qed.

Lemma world_three_windows_wf : windows_wf world_three_windows.
Proof.
  apply (run_window_ops_wf
           [op_add_window 1%positive 1%positive; op_add_window 1%positive 2%positive;
            op_add_window 1%positive 3%positive] world0).
  - apply world0_windows_wf.
  - vm_compute. reflexivity.
Qed.

Lemma world_three_windows_ordered :
  topmost_first (mem_window world_three_windows)
    (disp_windows (mem_display world_three_windows 1%positive)).
Proof.
  apply topmost_first_tf. vm_compute.
  repeat split; try discriminate; intros; repeat constructor.
Qed.

(** X2: window 1 added to display 1 of [world0]. *)
Lemma add_window_enlists_once_witness :
  disp_windows (mem_display world_one_window 1%positive) ≡ₚ [1%positive] ∧
  NoDup (disp_windows (mem_display world_one_window 1%positive)).
Proof.
  destruct (add_window_enlists_once 1%positive 1%positive world0 world_one_window)
    as (_ & P & N & _).
  - apply world0_windows_wf.
  - vm_compute. reflexivity.
  - split; [exact P|exact N].
Defined.

(** X3: the one window of display 1 removed. *)
Lemma remove_window_unlists_witness :
  disp_windows
    (mem_display (world_of (ds_display_remove_window 1%positive world_one_window))
       1%positive)
  = [] ∧
  mem_window (world_of (ds_display_remove_window 1%positive world_one_window)) 1%positive
  = mk_window None None 1 0.
Proof.
  destruct (remove_window_unlists 1%positive world_one_window
              (world_of (ds_display_remove_window 1%positive world_one_window)))
    as (L & _ & W & _).
  - apply world_one_window_wf.
  - vm_compute. reflexivity.
  - split; [rewrite L|rewrite W]; vm_compute; reflexivity.
Defined.

(** X4: window 1 added to display 1 of [world0] and removed again. *)
Lemma add_remove_window_round_trip_witness :
  ∃ w2,
    ds_display_remove_window 1%positive world_one_window = Ret ((), w2) ∧
    (∀ d, mem_display w2 d = mem_display world0 d) ∧
    (∀ p, mem_window w2 p = mem_window world0 p).
Proof.
  destruct (add_remove_window_round_trip 1%positive 1%positive world0 world_one_window)
    as (w2 & R & D & W & _).
  - apply not_elem_of_nil.
  - vm_compute. reflexivity.
  - exists w2. split; [exact R|]. split; [exact D|exact W].
Defined.

(** X5: window 1, last of the list 2, 3, 1, moved to the top: it passes
    window 3 and stays behind the topmost window 2. *)
Lemma window_to_top_front_of_class_witness :
  disp_windows
    (mem_display (world_of (ds_display_window_to_top 1%positive world_three_windows))
       1%positive)
  = [2%positive; 1%positive; 3%positive].
Proof.
  destruct (window_to_top_front_of_class 1%positive 1%positive world_three_windows
              (world_of (ds_display_window_to_top 1%positive world_three_windows)))
    as (_ & _ & H).
  - vm_compute. reflexivity.
  - vm_compute. reflexivity.
  - apply world_three_windows_ordered.
  - vm_compute. reflexivity.
  - rewrite H by (vm_compute; reflexivity). vm_compute. reflexivity.
Defined.

(** X8: the three windows of display 1, visited in both directions. *)
Lemma window_iteration_witness :
  (first ← ds_display_first_window 1%positive; windows_forward 3 first)
    world_three_windows
  = Ret ([2%positive; 3%positive; 1%positive], world_three_windows) ∧
  (last ← ds_display_last_window 1%positive; windows_backward 3 last)
    world_three_windows
  = Ret ([1%positive; 3%positive; 2%positive], world_three_windows).
Proof.
  apply (window_iteration 1%positive world_three_windows 3).
  - apply world_three_windows_wf.
  - vm_compute. lia.
Defined.

(** X9: the scan over the list 2, 3, 1 stops at window 3. *)
Lemma enlist_scan_finds_first_non_topmost_witness :
  (first ← ds_display_first_window 1%positive; scan_topmost 3 first) world_three_windows
  = Ret (Some 3%positive, world_three_windows).
Proof.
  apply (enlist_scan_finds_first_non_topmost 1%positive world_three_windows 3).
  - apply world_three_windows_wf.
  - vm_compute. lia.
Defined.

(** X12: three windows over each other; the topmost window 2 is hit. *)
Lemma window_by_pos_prefers_topmost_witness :
  ∃ wnd,
    ds_display_window_by_pos example_dpos example_rect gfx_rect_translate_offs
      1%positive (mk_coord2 5 5) world_three_windows
    = Ret (Some wnd, world_three_windows) ∧
    is_topmost (mem_window world_three_windows wnd) = true ∧
    window_at example_dpos example_rect gfx_rect_translate_offs (mk_coord2 5 5) wnd = true.
Proof.
  apply (window_by_pos_prefers_topmost example_dpos example_rect gfx_rect_translate_offs
           1%positive (mk_coord2 5 5) world_three_windows 2%positive).
  - apply world_three_windows_ordered.
  - vm_compute. repeat constructor.
  - vm_compute. reflexivity.
  - vm_compute. reflexivity.
Defined.

(** X17: a double-buffered display with one device and no windows. *)
Lemma paint_success_witness :
  disp_dirty_rect
    (mem_display (world_of (ds_display_paint env_ok 1%positive None world_one_ddev_db))
       1%positive)
  = rect_zero.
Proof.
  destruct (paint_success env_ok 1%positive None world_one_ddev_db
              (world_of (ds_display_paint env_ok 1%positive None world_one_ddev_db)))
    as [_ H].
  - vm_compute. reflexivity.
  - assert (disp_backbuf (mem_display world_one_ddev_db 1%positive) = Some 13%positive)
      as E by (vm_compute; reflexivity).
    rewrite E in H. apply H.
Defined.

(** X18: the same paint. *)
Lemma paint_changes_only_dirty_rect_witness :
  mem_window (world_of (ds_display_paint env_ok 1%positive None world_one_ddev_db))
  = mem_window world_one_ddev_db ∧
  disp_backbuf
    (mem_display (world_of (ds_display_paint env_ok 1%positive None world_one_ddev_db))
       1%positive)
  = disp_backbuf (mem_display world_one_ddev_db 1%positive).
Proof.
  destruct (paint_changes_only_dirty_rect env_ok 1%positive None world_one_ddev_db
              (world_of (ds_display_paint env_ok 1%positive None world_one_ddev_db)) EOK)
    as (_ & B & _ & W & _).
  - vm_compute. reflexivity.
  - split; [exact W|exact B].
Defined.

(** X20: two rectangles invalidated in either order. *)
Lemma invalidate_order_irrelevant_witness :
  ∃ w1 w2,
    invalidate_all 1%positive example_rects world_backbuf = Ret ((), w1) ∧
    invalidate_all 1%positive (reverse example_rects) world_backbuf = Ret ((), w2) ∧
    rect_within (disp_dirty_rect (mem_display w1 1%positive))
      (disp_dirty_rect (mem_display w2 1%positive)) ∧
    rect_within (disp_dirty_rect (mem_display w2 1%positive))
      (disp_dirty_rect (mem_display w1 1%positive)).
Proof.
  apply (invalidate_order_irrelevant 1%positive example_rects (reverse example_rects)
           world_backbuf).
  - vm_compute. split; discriminate.
  - repeat constructor; vm_compute; discriminate.
  - symmetry. apply reverse_Permutation.
Defined.

(** X21: the bitmap cannot be created. *)
Lemma alloc_backbuf_all_or_nothing_witness :
  disp_backbuf
    (mem_display
       (world_of (ds_display_alloc_backbuf env_no_bitmap 1%positive world0_double_buf))
       1%positive)
  = None.
Proof.
  destruct (alloc_backbuf_all_or_nothing env_no_bitmap 1%positive world0_double_buf
              (world_of (ds_display_alloc_backbuf env_no_bitmap 1%positive
                           world0_double_buf))
              (EOTHER 5))
    as (_ & _ & _ & F).
  - vm_compute. reflexivity.
  - vm_compute. reflexivity.
  - by destruct F as [F _].
Defined.
